(** * Tempo testnet deploy bot: a model of [run.js] and its properties

    The script is one sequential orchestration: compile a fixed contract,
    load private keys, shuffle the wallets, and for every wallet run a few
    deploy attempts separated by long randomised waits.  Everything the
    script cannot decide by itself (the random generator, the chain, the
    clock, the compiler, the file system) is an [Env] of replies; the
    script is a computation over a [World] that records which draws were
    consumed, which external calls were made and what the JS heap holds. *)

From Stdlib Require Import ZArith Lia List Permutation.
From stdpp Require Import base option list gmap strings pretty sorting.

Local Open Scope Z_scope.

(** ** Numbers

    JS numbers are IEEE doubles.  Every integer the script handles is far
    below [2^53], where doubles are exact, so integers are [Z].  The one
    place where a fraction appears is [Math.random()]: a double in [0,1)
    is [mant * 2^-expo] with a 53-bit mantissa. *)

Record Draw := mkDraw { mant : Z; expo : Z }.

(** The doubles of the half-open unit interval. *)
Definition unit_draw (u : Draw) : Prop :=
  0 <= mant u < 2 ^ 53 /\ 0 <= expo u <= 1074 /\ mant u < 2 ^ expo u.

Definition unit_drawb (u : Draw) : bool :=
  (0 <=? mant u) && (mant u <? 2 ^ 53) && (0 <=? expo u) &&
  (expo u <=? 1074) && (mant u <? 2 ^ expo u).

(** Rounding of a natural number to 53 significant bits, to nearest,
    ties to even: what the double multiplication does to the exact
    product of two mantissas. *)
Definition round53_nat (p : Z) : Z :=
  let L := Z.log2 p in
  if L <? 53 then p
  else
    let s := L - 52 in
    let q := Z.shiftr p s in
    let r := Z.land p (Z.ones s) in
    let half := 2 ^ (s - 1) in
    let q' := if (half <? r) || ((r =? half) && Z.odd q) then q + 1 else q in
    Z.shiftl q' s.

Definition round53 (p : Z) : Z := Z.sgn p * round53_nat (Z.abs p).

(** [Math.floor(u * n)] for a draw [u] and an integer [n]: the exact
    product is [mant u * n * 2^-expo u]; it is rounded to a double and
    then floored. *)
Definition floor_mul (u : Draw) (n : Z) : Z :=
  round53 (mant u * n) / 2 ^ expo u.

(** The double nearest to 0.3 is 5404319552844595 * 2^-54. *)
Definition gt_0_3 (u : Draw) : bool :=
  5404319552844595 * 2 ^ expo u <? mant u * 2 ^ 54.

(** [Math.floor(Math.random() * (max - min + 1)) + min] on a given draw.
    The difference and the two sums are exact here; the script computes
    them in doubles, which is the same while [min], [max] and
    [max - min + 1] stay below 2^53 in magnitude, as they do at every
    call of the script.  Statements about arbitrary [min] and [max]
    carry that bound. *)
Definition randomInt (min max : Z) (u : Draw) : Z :=
  floor_mul u (max - min + 1) + min.


(** ** Values the script passes around *)

(** A thrown JS [Error]; only its [message] is ever read. *)
Record Error := mkError { message : string }.

Inductive Result (T : Type) : Type :=
| Ok (v : T)
| Throw (e : Error).
Arguments Ok {T} v.
Arguments Throw {T} e.

(** A field of a JS object: the key may be missing, hold [null], or hold
    a value. *)
Inductive Field (T : Type) : Type :=
| Absent
| Null
| Value (v : T).
Arguments Absent {T}.
Arguments Null {T}.
Arguments Value {T} v.

(** An [ethers.Wallet]: [provider] is [null] when none is attached. *)
Record Wallet := mkWallet {
  address : string;
  privateKey : string;
  provider : option string
}.

Record Artifact := mkArtifact { abi : string; bytecode : string }.

(** The object returned by [deployContract]; [None] and [Absent] mean
    that the object has no such key. *)
Record Outcome := mkOutcome {
  success : bool;
  deployer : string;
  contractAddress : option string;
  txHash : Field string;
  explorer : option string;
  error : option string;
  timestamp : string;
  walletIndex : Z;
  deployNumber : Z
}.

Record Features := mkFeatures {
  randomDeployCount : string;
  randomIntervals : list string;
  antiDetection : bool;
  shuffledWalletsFlag : bool;
  randomDelays : bool
}.

Record Summary := mkSummary {
  network : string;
  chainId : Z;
  botVersion : string;
  features : Features;
  totalDeployments : Z;
  successful : Z;
  failed : Z;
  uniqueWallets : Z;
  deployments : list Outcome;
  startTime : string;
  endTime : string
}.

Record SolcError := mkSolcError { severity : string; formattedMessage : string }.

(** The parsed compiler output: [errors] may be missing; [contracts]
    holds the abi and the bytecode object of MyContract when present. *)
Record SolcOutput := mkSolcOutput {
  errors : option (list SolcError);
  contracts : option (string * string)
}.

(** ** The outside world *)

(** Every call the script makes to something outside itself. *)
Inductive Event :=
| ECompile (source : string)
| EReadFile (path : string)
| EGetBalance (addr : string)
| EDeploy (gasLimit : Z)
| EWaitForDeployment
| EGetAddress
| EMessage
| ESetMessage (newMsg : option string) (gasLimit : Z)
| ETxWait
| ECountdown (seconds : Z) (label : string)
| EWriteFile (path : string) (summary : Summary).

(** The replies of the outside world.  A reply to a chain or file call
    may depend on everything that was called before (the list holds the
    calls so far, the present one first). *)
Record Env := mkEnv {
  random : nat -> Draw;
  now : nat -> string;
  solc : string -> Result SolcOutput;
  readFile : string -> Result string;
  walletAddress : string -> Result string;
  contractFactory : Artifact -> Result unit;
  getBalance : list Event -> Result Z;
  deploy : list Event -> Result unit;
  waitForDeployment : list Event -> Result unit;
  getAddress : list Event -> Result string;
  contract_message : list Event -> Result string;
  setMessage : list Event -> Result string;
  tx_wait : list Event -> Result unit;
  writeFile : list Event -> Result unit
}.

Definition loc := positive.

(** The state of a run: the JS arrays that are shared by reference, how
    many draws and clock readings were taken, and the calls made so far
    (latest first). *)
Record World (A : Type) := mkWorld {
  heap : gmap loc (list (option A));
  draws : nat;
  clock : nat;
  log : list Event
}.
Arguments mkWorld {A} heap draws clock log.
Arguments heap {A} w.
Arguments draws {A} w.
Arguments clock {A} w.
Arguments log {A} w.

(** ** The monad of the script: state and exceptions *)

Definition M (A T : Type) : Type := World A -> Result T * World A.

Definition ret {A T} (v : T) : M A T := fun w => (Ok v, w).

Definition bind {A T U} (c : M A T) (k : T -> M A U) : M A U :=
  fun w => match c w with
           | (Ok v, w') => k v w'
           | (Throw e, w') => (Throw e, w')
           end.

Definition throw {A T} (msg : string) : M A T := fun w => (Throw (mkError msg), w).

Definition try_catch {A T} (body : M A T) (handler : Error -> M A T) : M A T :=
  fun w => match body w with
           | (Ok v, w') => (Ok v, w')
           | (Throw e, w') => handler e w'
           end.

Definition lift {A T} (r : Result T) : M A T := fun w => (r, w).

Declare Scope js_scope.
Delimit Scope js_scope with js.
Notation "x <- c ;; k" := (bind c (fun x => k))
  (at level 100, c at next level, right associativity) : js_scope.
Notation "c ;; k" := (bind c (fun _ => k))
  (at level 100, right associativity) : js_scope.
Local Open Scope js_scope.

(** ** JS arrays *)

(** [array[i]]: [undefined] ([None]) outside the array. *)
Definition js_get {A} (l : list (option A)) (i : Z) : option A :=
  if i <? 0 then None else mjoin (l !! Z.to_nat i).

(** [array[i] = v]: writing past the end extends the array with holes. *)
Definition js_set {A} (l : list (option A)) (i : Z) (v : option A) : list (option A) :=
  if i <? 0 then l
  else if i <? Z.of_nat (length l) then <[Z.to_nat i := v]> l
  else l ++ replicate (Z.to_nat i - length l) None ++ [v].

(** [array[i]] on an array literal or constant. *)
Definition js_index {T} (l : list T) (i : Z) : option T :=
  if i <? 0 then None else l !! Z.to_nat i.

(** ** Configuration *)

Module CONFIG.
Definition RPC_URL : string := "https://rpc.testnet.tempo.xyz".
Definition CHAIN_ID : Z := 42429.
Definition EXPLORER_URL : string := "https://explore.tempo.xyz".
Definition GAS_LIMIT : Z := 3000000.
Definition MIN_DEPLOY_COUNT : Z := 2.
Definition MAX_DEPLOY_COUNT : Z := 4.
Definition INTERVAL_OPTIONS : list Z := [6; 12; 24].
Definition MIN_DELAY_BETWEEN_WALLETS : Z := 5.
Definition MAX_DELAY_BETWEEN_WALLETS : Z := 30.
Definition MIN_DELAY_BETWEEN_DEPLOYS : Z := 3.
Definition MAX_DELAY_BETWEEN_DEPLOYS : Z := 10.
End CONFIG.

Definition dquote : string := String (Ascii.ascii_of_nat 34) EmptyString.

Definition getContractSource : string :=
  "
pragma solidity ^0.8.20;

contract MyContract {
    string public message = " +:+ dquote +:+ "Hello Tempo!" +:+ dquote +:+ ";
    
    event MessageUpdated(address indexed user, string newMessage);
    
    function setMessage(string calldata msg_) external {
        message = msg_;
        emit MessageUpdated(msg.sender, msg_);
    }
}
".

Definition messages : list string :=
  ["Hello Tempo"; "GM Tempo"; "GN Tempo"; "Testing Tempo";
   "Done Tempo"; "Success Tempo"; "Deployed Tempo"; "Started Tempo"].

(** ** Reading the key file *)

Definition newline : Ascii.ascii := Ascii.ascii_of_nat 10.

(** [content.split('\n')] *)
Fixpoint split_lines (s : string) : list string :=
  match s with
  | EmptyString => [EmptyString]
  | String c s' =>
      if Ascii.eqb c newline then EmptyString :: split_lines s'
      else match split_lines s' with
           | l :: ls => String c l :: ls
           | [] => [String c EmptyString]
           end
  end.

(** White space of an ASCII file: space, tab, LF, VT, FF, CR.
    [String.prototype.trim] also strips the white space outside ASCII
    (U+00A0, U+FEFF, U+2028 and others): [trim] below is [line.trim()]
    on texts of ASCII characters only, and statements about the keys read
    from a file carry that condition on the file. *)
Definition is_space (c : Ascii.ascii) : bool :=
  let n := Ascii.nat_of_ascii c in
  ((n =? 32) || ((9 <=? n) && (n <=? 13)))%nat.

Fixpoint trimStart (s : string) : string :=
  match s with
  | EmptyString => EmptyString
  | String c s' => if is_space c then trimStart s' else s
  end.

Fixpoint trimEnd (s : string) : string :=
  match s with
  | EmptyString => EmptyString
  | String c s' =>
      let t := trimEnd s' in
      if is_space c && String.eqb t EmptyString then EmptyString else String c t
  end.

Definition trim (s : string) : string := trimEnd (trimStart s).

(** [line && !line.startsWith('#')] *)
Definition keep_line (line : string) : bool :=
  match line with
  | EmptyString => false
  | String c _ => negb (Ascii.eqb c (Ascii.ascii_of_nat 35))
  end.

Definition parse_keys (content : string) : list string :=
  List.filter keep_line (trim <$> split_lines content).

(** [array.map(f)] for an [f] that may throw: stops at the first throw. *)
Fixpoint map_result {T U} (f : T -> Result U) (l : list T) : Result (list U) :=
  match l with
  | [] => Ok []
  | x :: l' =>
      match f x with
      | Throw e => Throw e
      | Ok y => match map_result f l' with
                | Throw e => Throw e
                | Ok ys => Ok (y :: ys)
                end
      end
  end.

(** ** Primitive steps *)

Section Steps.
Context {A : Type}.
Variable env : Env.

(** [Math.random()]: the next draw of the generator. *)
Definition Math_random : M A Draw :=
  fun w => (Ok (random env (draws w)),
            mkWorld (heap w) (S (draws w)) (clock w) (log w)).

(** [new Date().toISOString()] *)
Definition Date_now : M A string :=
  fun w => (Ok (now env (clock w)),
            mkWorld (heap w) (draws w) (S (clock w)) (log w)).

(** An external call: it is recorded, then the world replies. *)
Definition call {T} (ev : Event) (reply : list Event -> Result T) : M A T :=
  fun w => let l := ev :: log w in
           (reply l, mkWorld (heap w) (draws w) (clock w) l).

Definition getRandomInt (min max : Z) : M A Z :=
  u <- Math_random ;;
  ret (randomInt min max u).

Definition getRandomElement {T} (array : list T) : M A (option T) :=
  u <- Math_random ;;
  ret (js_index array (floor_mul u (Z.of_nat (length array)))).

Definition getRandomMessage : M A (option string) :=
  getRandomElement messages.

(** [countdown] sleeps one second [seconds] times (not at all when
    [seconds] is not positive) and does nothing else. *)
Definition countdown (seconds : Z) (label : string) : M A unit :=
  call (ECountdown seconds label) (fun _ => Ok tt).

(** *** Arrays on the heap *)

(** The array behind a reference.  References only come from [alloc],
    so the lookup succeeds wherever the script uses one. *)
Definition array_at (w : World A) (a : loc) : list (option A) :=
  default [] (heap w !! a).

(** A new array object holding [xs]. *)
Definition alloc (xs : list (option A)) : M A loc :=
  fun w => let a := fresh (dom (heap w)) in
           (Ok a, mkWorld (<[a := xs]> (heap w)) (draws w) (clock w) (log w)).

Definition contents (a : loc) : M A (list (option A)) :=
  fun w => (Ok (array_at w a), w).

Definition array_length (a : loc) : M A Z :=
  fun w => (Ok (Z.of_nat (length (array_at w a))), w).

Definition read (a : loc) (i : Z) : M A (option A) :=
  fun w => (Ok (js_get (array_at w a) i), w).

Definition write (a : loc) (i : Z) (v : option A) : M A unit :=
  fun w => (Ok tt, mkWorld (<[a := js_set (array_at w a) i v]> (heap w))
                           (draws w) (clock w) (log w)).

(** *** shuffleArray *)

(** The loop [for (let i = shuffled.length - 1; i > 0; i--)], at
    index [i]. *)
Fixpoint shuffle_loop (i : nat) (shuffled : loc) : M A unit :=
  match i with
  | O => ret tt
  | S i' =>
      u <- Math_random ;;
      let j := floor_mul u (Z.of_nat i + 1) in
      sj <- read shuffled j ;;
      si <- read shuffled (Z.of_nat i) ;;
      write shuffled (Z.of_nat i) sj ;;
      write shuffled j si ;;
      shuffle_loop i' shuffled
  end.

Definition shuffleArray (array : loc) : M A loc :=
  xs <- contents array ;;
  shuffled <- alloc xs ;;
  n <- array_length shuffled ;;
  shuffle_loop (Z.to_nat (n - 1)) shuffled ;;
  ret shuffled.
End Steps.

(** ** The script *)

Section Script.
Variable env : Env.

Definition compileContract (source : string) : M Wallet Artifact :=
  output <- call (ECompile source) (fun _ => solc env source) ;;
  match errors output with
  | Some errs =>
      let errs' := List.filter (fun e => String.eqb (severity e) "error") errs in
      if (0 <? length errs')%nat then throw "Contract compilation failed" else ret tt
  | None => ret tt
  end ;;
  match contracts output with
  | None => throw "Cannot read properties of undefined (reading 'MyContract.sol')"
  | Some (a, object) => ret (mkArtifact a ("0x" +:+ object))
  end.

Definition getPrivateKeys : M Wallet (list string) :=
  content <- call (EReadFile "pk.txt") (fun _ => readFile env "pk.txt") ;;
  ret (parse_keys content).

(** [new ethers.Wallet(pk, provider)] *)
Definition newWallet (pk : string) : Result Wallet :=
  match walletAddress env pk with
  | Ok a => Ok (mkWallet a pk (Some CONFIG.RPC_URL))
  | Throw e => Throw e
  end.

(** The [try] block of [deployContract]. *)
Definition deployAttempt (wallet : Wallet) (art : Artifact)
    (deployNumber walletIndex : Z) : M Wallet Outcome :=
  balance <- match provider wallet with
             | None => throw "Cannot read properties of null (reading 'getBalance')"
             | Some _ => call (EGetBalance (address wallet)) (getBalance env)
             end ;;
  if balance =? 0 then throw "Balance 0! Skip wallet ini" else
  randomGas <- getRandomInt env 2500000 CONFIG.GAS_LIMIT ;;
  lift (contractFactory env art) ;;
  call (EDeploy randomGas) (deploy env) ;;
  call EWaitForDeployment (waitForDeployment env) ;;
  contractAddress <- call EGetAddress (getAddress env) ;;
  call EMessage (contract_message env) ;;
  u <- Math_random env ;;
  let shouldUpdate := gt_0_3 u in
  txHash <- (if shouldUpdate then
               randomDelay <- getRandomInt env 2 5 ;;
               countdown randomDelay "Updating message in" ;;
               newMsg <- getRandomMessage env ;;
               gas <- getRandomInt env 80000 120000 ;;
               hash <- call (ESetMessage newMsg gas) (setMessage env) ;;
               call ETxWait (tx_wait env) ;;
               call EMessage (contract_message env) ;;
               ret (Value hash)
             else ret Null) ;;
  let url := CONFIG.EXPLORER_URL +:+ "/address/" +:+ contractAddress in
  ts <- Date_now env ;;
  ret {| success := true;
         deployer := address wallet;
         contractAddress := Some contractAddress;
         txHash := txHash;
         explorer := Some url;
         error := None;
         timestamp := ts;
         walletIndex := walletIndex;
         deployNumber := deployNumber |}.

Definition deployContract (wallet : Wallet) (art : Artifact)
    (deployNumber walletIndex : Z) : M Wallet Outcome :=
  try_catch (deployAttempt wallet art deployNumber walletIndex)
    (fun error =>
       ts <- Date_now env ;;
       ret {| success := false;
              deployer := address wallet;
              contractAddress := None;
              txHash := Absent;
              explorer := None;
              error := Some (message error);
              timestamp := ts;
              walletIndex := walletIndex;
              deployNumber := deployNumber |}).

(** [intervalHours * 3600 + randomVariation] *)
Definition totalWait (intervalHours randomVariation : Z) : Z :=
  intervalHours * 3600 + randomVariation.

(** The loop [for (let i = 0; i < deployCount; i++)] of
    [processWallet] with [todo] rounds left, at index [i]. *)
Fixpoint deploy_loop (todo : nat) (i : Z) (wallet : Wallet) (art : Artifact)
    (walletIndex deployCount intervalHours : Z) (results : list Outcome)
    : M Wallet (list Outcome) :=
  match todo with
  | O => ret results
  | S todo' =>
      let deployNumber := walletIndex * 100 + i + 1 in
      result <- deployContract wallet art deployNumber (walletIndex + 1) ;;
      let results := results ++ [result] in
      (if i <? deployCount - 1 then
         randomVariation <- getRandomInt env (-600) 600 ;;
         countdown (totalWait intervalHours randomVariation)
           ("Next deployment (#" +:+ pretty (i + 2) +:+ "/" +:+ pretty deployCount +:+ ")")
       else ret tt) ;;
      deploy_loop todo' (i + 1) wallet art walletIndex deployCount intervalHours results
  end.

(** [wallet] is an element of the shuffled array, [undefined] when the
    slot is empty.  [intervalHours] is [undefined] only if the index
    [Math.floor(Math.random() * 3)] leaves the three options, which no
    draw of [0,1) does ([interval_pick] below); the arithmetic on it is
    then not modelled and the wait is computed from 0. *)
Definition processWallet (wallet : option Wallet) (art : Artifact)
    (walletIndex totalWallets : Z) : M Wallet (list Outcome) :=
  deployCount <- getRandomInt env CONFIG.MIN_DEPLOY_COUNT CONFIG.MAX_DEPLOY_COUNT ;;
  intervalHours <- getRandomElement env CONFIG.INTERVAL_OPTIONS ;;
  match wallet with
  | None => throw "Cannot read properties of undefined (reading 'address')"
  | Some wallet =>
      deploy_loop (Z.to_nat deployCount) 0 wallet art walletIndex deployCount
        (default 0 intervalHours) []
  end.

(** The loop over the shuffled wallets in [main]. *)
Fixpoint wallets_loop (todo : nat) (i : Z) (shuffledWallets : loc) (art : Artifact)
    (allResults : list Outcome) : M Wallet (list Outcome) :=
  match todo with
  | O => ret allResults
  | S todo' =>
      wallet <- read shuffledWallets i ;;
      n <- array_length shuffledWallets ;;
      walletResults <- processWallet wallet art i n ;;
      let allResults := allResults ++ walletResults in
      (if i <? n - 1 then
         delaySeconds <- getRandomInt env CONFIG.MIN_DELAY_BETWEEN_WALLETS
                           CONFIG.MAX_DELAY_BETWEEN_WALLETS ;;
         countdown delaySeconds "Starting next wallet in"
       else ret tt) ;;
      wallets_loop todo' (i + 1) shuffledWallets art allResults
  end.

(** The summary object built at the end of [main].  The timestamps are
    those of [toISOString], on which [new Date(s).toISOString()] is the
    identity; without a first outcome [new Date(undefined)] is invalid
    and [toISOString] throws a RangeError. *)
Definition summarize (allResults : list Outcome) : M Wallet Summary :=
  let successful := List.filter success allResults in
  let failed := List.filter (fun r => negb (success r)) allResults in
  let uniqueWallets : gset string := list_to_set (deployer <$> allResults) in
  start <- match allResults with
           | r :: _ => ret (timestamp r)
           | [] => throw "Invalid time value"
           end ;;
  finish <- Date_now env ;;
  ret {| network := "Tempo Testnet";
         chainId := CONFIG.CHAIN_ID;
         botVersion := "3.0.0";
         features :=
           {| randomDeployCount :=
                pretty CONFIG.MIN_DEPLOY_COUNT +:+ "-" +:+ pretty CONFIG.MAX_DEPLOY_COUNT;
              randomIntervals := (fun h => pretty h +:+ "h") <$> CONFIG.INTERVAL_OPTIONS;
              antiDetection := true;
              shuffledWalletsFlag := true;
              randomDelays := true |};
         totalDeployments := Z.of_nat (length allResults);
         successful := Z.of_nat (length successful);
         failed := Z.of_nat (length failed);
         uniqueWallets := Z.of_nat (size uniqueWallets);
         deployments := allResults;
         startTime := start;
         endTime := finish |}.

(** The [try] block of [main]. *)
Definition main_body : M Wallet unit :=
  let source := getContractSource in
  art <- compileContract source ;;
  privateKeys <- getPrivateKeys ;;
  if (length privateKeys =? 0)%nat then throw "No private keys found in pk.txt" else
  wallets <- lift (map_result newWallet privateKeys) ;;
  walletsArray <- alloc (Some <$> wallets) ;;
  shuffledWallets <- shuffleArray env walletsArray ;;
  n <- array_length shuffledWallets ;;
  allResults <- wallets_loop (Z.to_nat n) 0 shuffledWallets art [] ;;
  summary <- summarize allResults ;;
  call (EWriteFile "deployments.json" summary) (writeFile env) ;;
  ret tt.

(** [main]: the exit code of the process and the final world.  The
    [catch] ends the process with [process.exit(1)]. *)
Definition main (w : World Wallet) : Z * World Wallet :=
  match main_body w with
  | (Ok _, w') => (0, w')
  | (Throw _, w') => (1, w')
  end.
End Script.

(** ** Specification vocabulary *)

(** [effects c P Q]: whatever world [c] starts in, the calls it adds to
    the log all satisfy [P], and a returned value satisfies [Q]. *)
Definition effects {A T} (c : M A T) (P : Event -> Prop) (Q : T -> Prop) : Prop :=
  forall w : World A,
    (exists evs, log (c w).2 = evs ++ log w /\ Forall P evs) /\
    match (c w).1 with Ok v => Q v | Throw _ => True end.

(** The calls that reach the chain. *)
Definition chain_call (ev : Event) : bool :=
  match ev with
  | EGetBalance _ | EDeploy _ | EWaitForDeployment | EGetAddress
  | EMessage | ESetMessage _ _ | ETxWait => true
  | _ => false
  end.

Definition is_deploy (ev : Event) : bool :=
  match ev with EDeploy _ => true | _ => false end.

Definition is_write (ev : Event) : bool :=
  match ev with EWriteFile _ _ => true | _ => false end.

Definition is_setMessage (ev : Event) : bool :=
  match ev with ESetMessage _ _ => true | _ => false end.


(** The counts of a summary agree with its list of outcomes. *)
Definition summary_counts (s : Summary) : Prop :=
  successful s = Z.of_nat (length (List.filter success (deployments s))) /\
  failed s = Z.of_nat (length (List.filter (fun r => negb (success r)) (deployments s))) /\
  totalDeployments s = Z.of_nat (length (deployments s)) /\
  successful s + failed s = Z.of_nat (length (deployments s)).


(** What a run may log when only its summaries are of interest: any call
    but a file write, or the write of a summary whose outcome list
    satisfies [G] and whose counts add up. *)
Definition run_event (G : list Outcome -> Prop) (ev : Event) : Prop :=
  match ev with
  | EWriteFile _ s => G (deployments s) /\ summary_counts s
  | _ => True
  end.

(** [label.startsWith(p)] *)
Fixpoint startsWith (p s : string) : bool :=
  match p, s with
  | EmptyString, _ => true
  | String a p', String b s' => Ascii.eqb a b && startsWith p' s'
  | String _ _, EmptyString => false
  end.

(** The calls that carry a random quantity or a summary. *)
Definition randomised (ev : Event) : bool :=
  match ev with
  | EDeploy _ | ESetMessage _ _ | ECountdown _ _ | EWriteFile _ _ => true
  | _ => false
  end.

(** [admits env P]: [P] holds of every call the script can make short of
    writing the summary, whatever the draws behind its random quantities. *)
Record admits (env : Env) (P : Event -> Prop) : Prop := {
  admits_plain : forall ev, randomised ev = false -> P ev;
  admits_deploy : forall k,
    P (EDeploy (randomInt 2500000 CONFIG.GAS_LIMIT (random env k)));
  admits_setMessage : forall k newMsg,
    P (ESetMessage newMsg (randomInt 80000 120000 (random env k)));
  admits_update : forall k,
    P (ECountdown (randomInt 2 5 (random env k)) "Updating message in");
  admits_next : forall k k' rest,
    P (ECountdown
         (totalWait (default 0 (js_index CONFIG.INTERVAL_OPTIONS
                                  (floor_mul (random env k) 3)))
                    (randomInt (-600) 600 (random env k')))
         ("Next deployment (#" +:+ rest));
  admits_wallet : forall k,
    P (ECountdown (randomInt CONFIG.MIN_DELAY_BETWEEN_WALLETS
                     CONFIG.MAX_DELAY_BETWEEN_WALLETS (random env k))
         "Starting next wallet in")
}.

(** The bounds of the random quantities that reach the outside world. *)
Definition within_bounds (ev : Event) : Prop :=
  match ev with
  | EDeploy gasLimit => 2500000 <= gasLimit <= 3000000
  | ESetMessage _ gasLimit => 80000 <= gasLimit <= 120000
  | ECountdown seconds label =>
      if startsWith "Next deployment" label then
        exists intervalHours,
          intervalHours ∈ CONFIG.INTERVAL_OPTIONS /\
          intervalHours * 3600 - 600 <= seconds <= intervalHours * 3600 + 600 /\
          0 < seconds
      else if String.eqb label "Updating message in" then 2 <= seconds <= 5
      else 5 <= seconds <= 30
  | _ => True
  end.

(** ** Sample worlds, used to run the model *)

(** Draws that alternate between a little above one half and the
    largest double below one. *)
Definition sample_draw (k : nat) : Draw :=
  if Nat.even k then mkDraw (2 ^ 52 + 12345) 53 else mkDraw (2 ^ 53 - 1) 53.

(** Draws near zero. *)
Definition low_draw (k : nat) : Draw := mkDraw (Z.of_nat k) 53.


Definition sample_output : SolcOutput :=
  mkSolcOutput (Some [mkSolcError "warning" "SPDX license identifier not provided"])
               (Some ("[]", "6080604052")).

Definition failed_output : SolcOutput :=
  mkSolcOutput (Some [mkSolcError "warning" "unused variable";
                      mkSolcError "error" "ParserError: expected ';'"])
               None.

Definition sample_keys : string :=
  "# keys" +:+ String newline ("aa11" +:+ String newline " bb22 ").

(** A chain that accepts everything, with the given generator, key
    file, compiler output and account balance. *)
Definition world_of (rnd : nat -> Draw) (keys : string) (output : SolcOutput)
    (balance : Z) : Env :=
  {| random := rnd;
     now := fun k => "2026-01-01T00:00:0" +:+ pretty k +:+ ".000Z";
     solc := fun _ => Ok output;
     readFile := fun _ => Ok keys;
     walletAddress := fun pk => Ok ("0x" +:+ pk);
     contractFactory := fun _ => Ok tt;
     getBalance := fun _ => Ok balance;
     deploy := fun _ => Ok tt;
     waitForDeployment := fun _ => Ok tt;
     getAddress := fun l => Ok ("0xC0" +:+ pretty (length l));
     contract_message := fun _ => Ok "Hello Tempo!";
     setMessage := fun l => Ok ("0xDD" +:+ pretty (length l));
     tx_wait := fun _ => Ok tt;
     writeFile := fun _ => Ok tt |}.

Definition sample_env : Env := world_of sample_draw sample_keys sample_output 1000000.

(** The same with empty accounts. *)
Definition broke_env : Env := world_of low_draw sample_keys sample_output 0.

(** The same with draws near zero: no follow-up transaction. *)
Definition quiet_env : Env := world_of low_draw sample_keys sample_output 1000000.

(** The same with an empty key file. *)
Definition nokeys_env : Env := world_of sample_draw "" sample_output 1000000.

(** The same with a compiler that reports an error. *)
Definition badsolc_env : Env := world_of sample_draw sample_keys failed_output 1000000.

Definition sample_wallet : Wallet := mkWallet "0xaa11" "aa11" (Some CONFIG.RPC_URL).

Definition sample_artifact : Artifact := mkArtifact "[]" "0x6080604052".

Definition empty_world {A} : World A := mkWorld ∅ 0 0 [].

(** A heap with one array of numbers and a hole. *)
Definition sample_heap : World Z :=
  mkWorld {[ 1%positive := [Some 10; Some 20; None; Some 30; Some 20] ]} 0 0 [].


(** ** The countdown in detail *)

(** [formatTime(seconds)]: [Math.floor] is the division that rounds
    down, [%] the remainder with the sign of the dividend. *)
Definition formatTime (seconds : Z) : string :=
  let h := seconds / 3600 in
  let m := Z.rem seconds 3600 / 60 in
  let s := Z.rem seconds 60 in
  if 0 <? h then pretty h +:+ "h " +:+ pretty m +:+ "m " +:+ pretty s +:+ "s"
  else if 0 <? m then pretty m +:+ "m " +:+ pretty s +:+ "s"
  else pretty s +:+ "s".

(** What [countdown] does to the terminal and to the timer. *)
Inductive Tick :=
| Print (text : string)
| Sleep (ms : Z).

Definition carriage_return : string := String (Ascii.ascii_of_nat 13) EmptyString.

(** The loop [for (let i = seconds; i > 0; i--)] of [countdown]; it
    stops by its test, [fuel] bounds the number of rounds. *)
Fixpoint countdown_loop (fuel : nat) (i : Z) (message : string) : list Tick :=
  match fuel with
  | O => []
  | S fuel' =>
      if 0 <? i then
        Print (carriage_return +:+ "⏳ " +:+ message +:+ ": " +:+ formatTime i +:+ "   ")
          :: Sleep 1000 :: countdown_loop fuel' (i - 1) message
      else []
  end.

(** Everything one call [countdown(seconds, message)] does: this is what
    a logged [ECountdown seconds message] stands for. *)
Definition countdown_ticks (fuel : nat) (seconds : Z) (message : string) : list Tick :=
  countdown_loop fuel seconds message ++
  [Print (carriage_return +:+ "✅ " +:+ message +:+ ": Ready!                    "
            +:+ String newline EmptyString)].

Definition slept (ticks : list Tick) : Z :=
  foldr (fun t acc => match t with Sleep ms => ms + acc | Print _ => acc end) 0 ticks.

Definition printed (ticks : list Tick) : list string :=
  omap (fun t => match t with Print text => Some text | Sleep _ => None end) ticks.

(** ** Vocabulary for the key file *)

(** The characters of a string. *)
Fixpoint chars (s : string) : list Ascii.ascii :=
  match s with
  | EmptyString => []
  | String c s' => c :: chars s'
  end.

(** A file of ASCII characters only: on such a file [trim] here and
    [String.prototype.trim] agree. *)
Definition ascii_text (s : string) : Prop :=
  Forall (fun c => (Ascii.nat_of_ascii c < 128)%nat) (chars s).

(** ** Vocabulary for the order of the calls *)

(** A call without the quantities that vary from run to run. *)
Definition erase (ev : Event) : Event :=
  match ev with
  | EDeploy _ => EDeploy 0
  | ESetMessage _ _ => ESetMessage None 0
  | ECountdown _ label => ECountdown 0 label
  | _ => ev
  end.

(** The calls of one complete deploy attempt, in the order they are made. *)
Definition attempt_protocol (addr : string) : list Event :=
  [EGetBalance addr; EDeploy 0; EWaitForDeployment; EGetAddress; EMessage;
   ECountdown 0 "Updating message in"; ESetMessage None 0; ETxWait; EMessage].

(** The wait between two deploys of one wallet. *)
Definition is_next_wait (ev : Event) : bool :=
  match ev with
  | ECountdown _ label => startsWith "Next deployment" label
  | _ => false
  end.

(** ** Vocabulary for the summary *)

(** What [main] puts in a summary besides the counts. *)
Definition summary_content (s : Summary) : Prop :=
  (exists first rest, deployments s = first :: rest /\ startTime s = timestamp first) /\
  uniqueWallets s = Z.of_nat (size (list_to_set (deployer <$> deployments s) : gset string)) /\
  1 <= uniqueWallets s <= totalDeployments s /\
  network s = "Tempo Testnet" /\ chainId s = 42429 /\ botVersion s = "3.0.0" /\
  features s = mkFeatures "2-4" ["6h"; "12h"; "24h"] true true true.

(** What a run may log, when the summary must have that content and go
    to the report file. *)
Definition report_event (ev : Event) : Prop :=
  match ev with
  | EWriteFile path s => path = "deployments.json" /\ summary_content s
  | _ => True
  end.

(** ** More fixtures *)

(** A chain whose wallet constructor refuses every key. *)
Definition badkey_env : Env :=
  {| random := random sample_env;
     now := now sample_env;
     solc := solc sample_env;
     readFile := readFile sample_env;
     walletAddress := fun _ => Throw (mkError "invalid private key");
     contractFactory := contractFactory sample_env;
     getBalance := getBalance sample_env;
     deploy := deploy sample_env;
     waitForDeployment := waitForDeployment sample_env;
     getAddress := getAddress sample_env;
     contract_message := contract_message sample_env;
     setMessage := setMessage sample_env;
     tx_wait := tx_wait sample_env;
     writeFile := writeFile sample_env |}.

(** ** Vocabulary for the end of a run *)

(** The calls [evs] added to the log hold no write of a file and are
    followed by one write of the summary [s], the latest call. *)
Definition wrote_summary_last (before after : list Event) (s : Summary) : Prop :=
  exists evs, after = EWriteFile "deployments.json" s :: evs ++ before /\
              Forall (fun ev => is_write ev = false) evs.

(** How the [try] block of [main] can end when started with the log
    [before]: it returns after a write of the summary that succeeded, or
    it throws, either before any write or because the write failed. *)
Definition ends_at_write (env : Env) (before : list Event)
    (r : Result unit * World Wallet) : Prop :=
  match r.1 with
  | Ok _ => exists s, wrote_summary_last before (log r.2) s /\
                      writeFile env (log r.2) = Ok tt
  | Throw e =>
      (exists evs, log r.2 = evs ++ before /\
                   Forall (fun ev => is_write ev = false) evs) \/
      (exists s, wrote_summary_last before (log r.2) s /\
                 writeFile env (log r.2) = Throw e)
  end.

(** ** Vocabulary for the duration of a run *)

(** The milliseconds slept in the countdowns of a list of calls. *)
Definition time_slept (evs : list Event) : Z :=
  foldr (fun ev acc =>
           match ev with
           | ECountdown seconds label =>
               slept (countdown_ticks (Z.to_nat seconds) seconds label) + acc
           | _ => acc
           end) 0 evs.

(** A chain that refuses every [setMessage]. *)
Definition stuck_env : Env :=
  {| random := random sample_env;
     now := now sample_env;
     solc := solc sample_env;
     readFile := readFile sample_env;
     walletAddress := walletAddress sample_env;
     contractFactory := contractFactory sample_env;
     getBalance := getBalance sample_env;
     deploy := deploy sample_env;
     waitForDeployment := waitForDeployment sample_env;
     getAddress := getAddress sample_env;
     contract_message := contract_message sample_env;
     setMessage := fun _ => Throw (mkError "nonce too low");
     tx_wait := tx_wait sample_env;
     writeFile := writeFile sample_env |}.

(** A disk that refuses every write. *)
Definition fulldisk_env : Env :=
  {| random := random sample_env;
     now := now sample_env;
     solc := solc sample_env;
     readFile := readFile sample_env;
     walletAddress := walletAddress sample_env;
     contractFactory := contractFactory sample_env;
     getBalance := getBalance sample_env;
     deploy := deploy sample_env;
     waitForDeployment := waitForDeployment sample_env;
     getAddress := getAddress sample_env;
     contract_message := contract_message sample_env;
     setMessage := setMessage sample_env;
     tx_wait := tx_wait sample_env;
     writeFile := fun _ => Throw (mkError "ENOSPC: no space left on device") |}.
(** ** Rounding facts *)

Lemma round53_nat_nonneg p : 0 <= p -> 0 <= round53_nat p.
Proof.
  intros Hp. unfold round53_nat.
  destruct (Z.ltb_spec (Z.log2 p) 53) as [|HL]; [done|].
  cbv zeta. rewrite Z.shiftl_mul_pow2 by lia.
  assert (0 <= Z.shiftr p (Z.log2 p - 52)) by (apply Z.shiftr_nonneg; lia).
  assert (0 < 2 ^ (Z.log2 p - 52)) by (apply Z.pow_pos_nonneg; lia).
  destruct (_ || _); nia.
Qed.

(** Rounding moves a number by at most half a unit in the last place and
    never below the truncation. *)
Lemma round53_nat_near p :
  0 < p -> 53 <= Z.log2 p ->
  let s := Z.log2 p - 52 in
  round53_nat p <= p \/ 2 * (round53_nat p - p) <= 2 ^ s.
Proof.
  intros Hp HL s. unfold round53_nat.
  destruct (Z.ltb_spec (Z.log2 p) 53) as [|_]; [lia|].
  cbv zeta. fold s.
  assert (Hs : 1 <= s) by (unfold s; lia).
  rewrite Z.shiftl_mul_pow2, Z.shiftr_div_pow2, Z.land_ones by lia.
  assert (H2 : 0 < 2 ^ s) by (apply Z.pow_pos_nonneg; lia).
  assert (Hsplit : 2 ^ s = 2 * 2 ^ (s - 1)).
  { rewrite <- Z.pow_succ_r by lia. f_equal. lia. }
  pose proof (Z.div_mod p (2 ^ s) ltac:(lia)) as Hdm.
  pose proof (Z.mod_pos_bound p (2 ^ s) H2) as Hr.
  set (q := p / 2 ^ s) in *. set (r := p mod 2 ^ s) in *.
  set (h := 2 ^ (s - 1)) in *.
  destruct ((h <? r) || ((r =? h) && Z.odd q)) eqn:Hup.
  - right. assert (h <= r).
    { apply orb_true_iff in Hup as [Hlt|Heq].
      - apply Z.ltb_lt in Hlt. lia.
      - apply andb_true_iff in Heq as [Heq _]. apply Z.eqb_eq in Heq. lia. }
    nia.
  - left. nia.
Qed.

(** The key bound: a draw below one times [n] never rounds up to [n]. *)
Lemma floor_mul_range u n :
  unit_draw u -> 1 <= n -> 0 <= floor_mul u n < n.
Proof.
  intros (Hm & He & Hlt) Hn. unfold floor_mul, round53.
  set (m := mant u) in *. set (e := expo u) in *.
  assert (H2e : 0 < 2 ^ e) by (apply Z.pow_pos_nonneg; lia).
  assert (Hp : 0 <= m * n) by nia.
  rewrite Z.abs_eq by done.
  destruct (Z.eq_dec (m * n) 0) as [Hz|Hnz].
  { rewrite Hz. cbn. rewrite Z.div_0_l by lia. lia. }
  rewrite Z.sgn_pos, Z.mul_1_l by lia.
  split.
  { apply Z.div_pos; [by apply round53_nat_nonneg | done]. }
  apply Z.div_lt_upper_bound; [done|].
  set (p := m * n) in *. set (T := 2 ^ e * n).
  assert (HpT : p < T) by (unfold p, T; nia).
  (* the draw is at most 1 - 2^-53 *)
  assert (Hgap : T <= 2 ^ 53 * (T - p)).
  { unfold T, p. destruct (Z.le_gt_cases e 53) as [Hle|Hgt].
    - assert (2 ^ e <= 2 ^ 53) by (apply Z.pow_le_mono_r; lia). nia.
    - assert (2 ^ 54 <= 2 ^ e) by (apply Z.pow_le_mono_r; lia). nia. }
  destruct (Z.lt_ge_cases (Z.log2 p) 53) as [Hsmall|Hbig].
  { unfold round53_nat. apply Z.ltb_lt in Hsmall. by rewrite Hsmall. }
  pose proof (round53_nat_near p ltac:(lia) Hbig) as Hnear. cbv zeta in Hnear.
  destruct Hnear as [Hdown|Hup]; [lia|].
  destruct (Z.lt_ge_cases (round53_nat p) T) as [|Hover]; [done|exfalso].
  pose proof (Z.log2_spec p ltac:(lia)) as [Hlo _].
  assert (Hpow : 2 ^ Z.log2 p = 2 ^ 52 * 2 ^ (Z.log2 p - 52)).
  { rewrite <- Z.pow_add_r by lia. f_equal. lia. }
  assert (0 < 2 ^ (Z.log2 p - 52)) by (apply Z.pow_pos_nonneg; lia).
  nia.
Qed.

Lemma randomInt_range min max u :
  unit_draw u -> min <= max -> min <= randomInt min max u <= max.
Proof.
  intros Hu Hmm. unfold randomInt.
  pose proof (floor_mul_range u (max - min + 1) Hu ltac:(lia)). lia.
Qed.

(** ** Running the model *)

Example round53_exact : round53 (2 ^ 53 - 1) = 2 ^ 53 - 1.
Proof. reflexivity. Qed.

Example round53_tie_even : round53 (2 ^ 53 + 1) = 2 ^ 53 /\ round53 (2 ^ 53 + 3) = 2 ^ 53 + 4.
Proof. split; reflexivity. Qed.

Example randomInt_top : randomInt 2 4 (mkDraw (2 ^ 53 - 1) 53) = 4.
Proof. reflexivity. Qed.

Example randomInt_bottom : randomInt (-600) 600 (mkDraw 0 0) = -600.
Proof. reflexivity. Qed.

Example randomInt_half : randomInt (-600) 600 (mkDraw 1 1) = 0.
Proof. reflexivity. Qed.

Example parse_keys_sample :
  parse_keys sample_keys = ["aa11"; "bb22"].
Proof. reflexivity. Qed.

Example parse_keys_empty : parse_keys "" = [].
Proof. reflexivity. Qed.

Example deploy_sample :
  (deployContract sample_env sample_wallet sample_artifact 1 1 empty_world).1 =
  Ok {| success := true; deployer := "0xaa11"; contractAddress := Some "0xC04";
        txHash := Value "0xDD7";
        explorer := Some "https://explore.tempo.xyz/address/0xC04"; error := None;
        timestamp := "2026-01-01T00:00:00.000Z"; walletIndex := 1; deployNumber := 1 |}.
Proof. vm_compute. reflexivity. Qed.

Example deploy_broke :
  (deployContract broke_env sample_wallet sample_artifact 1 1 empty_world).1 =
  Ok {| success := false; deployer := "0xaa11"; contractAddress := None;
        txHash := Absent; explorer := None; error := Some "Balance 0! Skip wallet ini";
        timestamp := "2026-01-01T00:00:00.000Z"; walletIndex := 1; deployNumber := 1 |}.
Proof. vm_compute. reflexivity. Qed.

Example main_sample_exit : (main sample_env empty_world).1 = 0.
Proof. vm_compute. reflexivity. Qed.

Example main_sample_deployNumbers :
  match log (main sample_env empty_world).2 with
  | EWriteFile _ s :: _ => deployNumber <$> deployments s
  | _ => []
  end = [1; 2; 3; 4; 101; 102; 103; 104].
Proof. vm_compute. reflexivity. Qed.

(** ** Reasoning about the monad *)

Lemma bind_Ok {A T U} (c : M A T) (k : T -> M A U) w v w' :
  bind c k w = (Ok v, w') ->
  exists x w1, c w = (Ok x, w1) /\ k x w1 = (Ok v, w').
Proof.
  unfold bind. destruct (c w) as [[x|e] w1]; [eauto | discriminate].
Qed.

Lemma bind_Throw {A T U} (c : M A T) (k : T -> M A U) w e w' :
  bind c k w = (Throw e, w') ->
  c w = (Throw e, w') \/ exists x w1, c w = (Ok x, w1) /\ k x w1 = (Throw e, w').
Proof.
  unfold bind. destruct (c w) as [[x|e0] w1]; [eauto | left; congruence].
Qed.

Lemma getRandomInt_run {A} env min max (w : World A) :
  getRandomInt env min max w =
  (Ok (randomInt min max (random env (draws w))),
   mkWorld (heap w) (S (draws w)) (clock w) (log w)).
Proof. reflexivity. Qed.

Lemma unit_drawb_spec u : unit_drawb u = true <-> unit_draw u.
Proof. unfold unit_drawb, unit_draw. rewrite !andb_true_iff. lia. Qed.

(** ** One deploy attempt *)

Ltac prim H :=
  cbv [call Math_random Date_now lift ret throw countdown getRandomInt
       getRandomMessage getRandomElement bind] in H.

(** One step of a run that returned. *)
Ltac step H x :=
  let w1 := fresh "w" in
  let Hc := fresh "Hc" in
  apply bind_Ok in H as (x & w1 & Hc & H);
  prim Hc; try discriminate Hc;
  injection Hc as Hc ?; subst w1; cbn [heap draws clock log] in H.

(** One step of a run that threw: either this step threw, or it
    returned and a later one threw. *)
Ltac tstep H x :=
  let w1 := fresh "w" in
  let Hc := fresh "Hc" in
  apply bind_Throw in H as [H | (x & w1 & Hc & H)];
  [ prim H; try discriminate H; injection H as H ?
  | prim Hc; try discriminate Hc; injection Hc as Hc ?; subst w1;
    cbn [heap draws clock log] in H ].

Lemma deployAttempt_Ok env wallet art dn wi w o w' :
  deployAttempt env wallet art dn wi w = (Ok o, w') ->
  success o = true /\ deployer o = address wallet /\ is_Some (contractAddress o) /\
  error o = None /\ walletIndex o = wi /\ deployNumber o = dn /\
  timestamp o = now env (clock w) /\
  exists evs, log w' = evs ++ log w /\
    (gt_0_3 (random env (S (draws w))) = false ->
       txHash o = Null /\ Forall (fun ev => is_setMessage ev = false) evs) /\
    (gt_0_3 (random env (S (draws w))) = true ->
       exists h msg gas, txHash o = Value h /\ ESetMessage msg gas ∈ evs).
Proof.
  unfold deployAttempt. intros H.
  apply bind_Ok in H as (balance & w1 & Hbal & H).
  destruct (provider wallet); [|discriminate].
  prim Hbal. injection Hbal as Hbal <-.
  destruct (balance =? 0) eqn:Hz; [discriminate|].
  step H gas. step H x3. step H x4. step H x5. step H addr. step H x7. step H u.
  apply bind_Ok in H as (tx & w9 & Htx & H).
  step H ts. prim H. injection H as <- <-. cbn [success deployer contractAddress
    error walletIndex deployNumber timestamp txHash log].
  subst u. destruct (gt_0_3 (random env (S (draws w)))).
  - step Htx delay. step Htx x9. step Htx msg. step Htx gas2. step Htx hash.
    step Htx x10. step Htx x11. prim Htx. injection Htx as <- <-. subst ts.
    cbn [clock log]. repeat split; eauto.
    eexists (_ :: _ :: _ :: _ :: _ :: _ :: _ :: _ :: _ :: []). split; [reflexivity|].
    split; [discriminate|]. intros _. do 3 eexists. split; [reflexivity|].
    do 2 apply list_elem_of_further. apply list_elem_of_here.
  - prim Htx. injection Htx as <- <-. subst ts. cbn [clock log]. repeat split; eauto.
    eexists (_ :: _ :: _ :: _ :: _ :: []). split; [reflexivity|].
    split; [|discriminate]. intros _. split; [reflexivity|]. repeat constructor.
Qed.



(** C2: when the balance query answers zero, the attempt ends at once in a
    failed outcome: [success = false], no contract address, an error that
    names the zero balance; the balance query is the only call made, so the
    deploy entry point of the chain client is not invoked. *)
Theorem zero_balance_short_circuits (env : Env) (wallet : Wallet) (art : Artifact)
    (deployNumber' walletIndex' : Z) (w : World Wallet) (rpc : string) :
  provider wallet = Some rpc ->
  getBalance env (EGetBalance (address wallet) :: log w) = Ok 0 ->
  exists o w',
    deployContract env wallet art deployNumber' walletIndex' w = (Ok o, w') /\
    success o = false /\
    contractAddress o = None /\
    error o = Some "Balance 0! Skip wallet ini" /\
    exists evs, log w' = evs ++ log w /\
                evs = [EGetBalance (address wallet)] /\
                Forall (fun ev => is_deploy ev = false) evs.
Proof.
  intros Hp Hb. unfold deployContract, try_catch, deployAttempt.
  rewrite Hp. unfold bind at 1. unfold call at 1. rewrite Hb. cbn.
  eexists _, _. split; [reflexivity|]. cbn. repeat split.
  exists [EGetBalance (address wallet)]. repeat split. by repeat constructor.
Qed.

Lemma zero_balance_short_circuits_witness :
  provider sample_wallet = Some CONFIG.RPC_URL /\
  getBalance broke_env (EGetBalance (address sample_wallet) :: log (@empty_world Wallet)) = Ok 0 /\
  exists o w',
    deployContract broke_env sample_wallet sample_artifact 1 1 empty_world = (Ok o, w') /\
    success o = false /\ contractAddress o = None /\
    error o = Some "Balance 0! Skip wallet ini".
Proof.
  split; [reflexivity|]. split; [reflexivity|].
  destruct (zero_balance_short_circuits broke_env sample_wallet sample_artifact 1 1
              empty_world CONFIG.RPC_URL eq_refl eq_refl)
    as (o & w' & Hrun & Hs & Ha & He & _).
  exists o, w'. by repeat split.
Defined.

(** C9: a successful attempt that does not take the follow-up branch
    returns an outcome whose [txHash] key is present and [null], with
    [success = true] and the contract address set; a hash is recorded only
    when the follow-up [setMessage] transaction was sent. *)
Theorem skipped_followup_has_null_txHash (env : Env) (wallet : Wallet) (art : Artifact)
    (deployNumber' walletIndex' : Z) (w w' : World Wallet) (o : Outcome) :
  deployContract env wallet art deployNumber' walletIndex' w = (Ok o, w') ->
  success o = true ->
  let shouldUpdate := gt_0_3 (random env (S (draws w))) in
  is_Some (contractAddress o) /\
  exists evs, log w' = evs ++ log w /\
    (shouldUpdate = false ->
       txHash o = Null /\ Forall (fun ev => is_setMessage ev = false) evs) /\
    (forall hash, txHash o = Value hash ->
       shouldUpdate = true /\ exists newMsg gas, ESetMessage newMsg gas ∈ evs).
Proof.
  intros Hrun Hs shouldUpdate. unfold deployContract, try_catch in Hrun.
  destruct (deployAttempt env wallet art deployNumber' walletIndex' w)
    as [[r|e] w1] eqn:Hatt.
  - injection Hrun as -> ->.
    apply deployAttempt_Ok in Hatt
      as (_ & _ & Ha & _ & _ & _ & _ & evs & Hlog & Hskip & Hsent).
    split; [done|]. exists evs. split; [done|]. split; [done|].
    intros hash Hh. fold shouldUpdate in Hskip, Hsent.
    destruct shouldUpdate.
    + split; [done|]. destruct Hsent as (h & msg & gas & _ & Hin); eauto.
    + destruct Hskip as [Hnull _]; [done|]. congruence.
  - cbn in Hrun. injection Hrun as <- _. discriminate.
Qed.

Lemma skipped_followup_has_null_txHash_witness :
  exists o w',
    deployContract quiet_env sample_wallet sample_artifact 1 1 empty_world = (Ok o, w') /\
    success o = true /\ txHash o = Null /\ is_Some (contractAddress o).
Proof.
  eexists _, _. split; [vm_compute; reflexivity|]. split; [reflexivity|].
  pose proof (skipped_followup_has_null_txHash quiet_env sample_wallet sample_artifact 1 1
                empty_world _ _ eq_refl eq_refl) as (Ha & evs & _ & Hskip & _).
  split; [|exact Ha]. apply Hskip. vm_compute. reflexivity.
Defined.

(** ** The shuffle *)


Section Shuffle.
Context {A : Type}.
Variable env : Env.

Lemma js_swap_permutation (xs : list (option A)) (i : nat) (j : Z) :
  (i < length xs)%nat -> 0 <= j <= Z.of_nat i ->
  js_set (js_set xs (Z.of_nat i) (js_get xs j)) j (js_get xs (Z.of_nat i)) ≡ₚ xs.
Proof.
  intros Hi Hj. unfold js_get, js_set.
  destruct (Z.ltb_spec (Z.of_nat i) 0); [lia|].
  destruct (Z.ltb_spec j 0); [lia|].
  destruct (Z.ltb_spec (Z.of_nat i) (Z.of_nat (length xs))); [|lia].
  rewrite length_insert.
  destruct (Z.ltb_spec j (Z.of_nat (length xs))); [|lia].
  rewrite Nat2Z.id.
  destruct (lookup_lt_is_Some_2 xs i Hi) as [vi Hvi].
  destruct (lookup_lt_is_Some_2 xs (Z.to_nat j) ltac:(lia)) as [vj Hvj].
  rewrite Hvi, Hvj. cbn. by apply Permutation_insert_swap.
Qed.

Lemma world_eta (w : World A) : mkWorld (heap w) (draws w) (clock w) (log w) = w.
Proof. by destruct w. Qed.

Lemma shuffle_step (i : nat) (sh : loc) (w : World A) (xs : list (option A)) :
  heap w !! sh = Some xs ->
  let j := floor_mul (random env (draws w)) (Z.of_nat (S i) + 1) in
  shuffle_loop env (S i) sh w =
  shuffle_loop env i sh
    (mkWorld (<[sh := js_set (js_set xs (Z.of_nat (S i)) (js_get xs j)) j
                        (js_get xs (Z.of_nat (S i)))]> (heap w))
             (S (draws w)) (clock w) (log w)).
Proof.
  intros Hxs j. cbn [shuffle_loop].
  unfold bind at 1. unfold Math_random at 1.
  unfold bind at 1. unfold read at 1. cbn [heap draws clock log].
  unfold bind at 1. unfold read at 1. cbn [heap draws clock log].
  unfold bind at 1. unfold write at 1. cbn [heap draws clock log].
  unfold bind at 1. unfold write at 1. cbn [heap draws clock log].
  unfold array_at. cbn [heap]. rewrite Hxs, lookup_insert_eq. cbn [default].
  by rewrite insert_insert_eq.
Qed.

(** The loop only ever writes to the copy. *)
Lemma shuffle_loop_frame (i : nat) (sh : loc) :
  forall w : World A, exists w',
    shuffle_loop env i sh w = (Ok tt, w') /\
    (forall a, a ≠ sh -> heap w' !! a = heap w !! a) /\
    clock w' = clock w /\ log w' = log w.
Proof.
  induction i as [|i IH]; intros w.
  - exists w. by repeat split.
  - cbn [shuffle_loop].
    unfold bind at 1. unfold Math_random at 1.
    unfold bind at 1. unfold read at 1.
    unfold bind at 1. unfold read at 1.
    unfold bind at 1. unfold write at 1.
    unfold bind at 1. unfold write at 1.
    match goal with |- context [shuffle_loop env i sh ?w1] =>
      destruct (IH w1) as (w' & Hrun & Hheap & Hclock & Hlog) end.
    exists w'. split; [exact Hrun|]. cbn [heap clock log] in *.
    split; [|done]. intros a Ha. rewrite Hheap by done.
    by rewrite !lookup_insert_ne.
Qed.

Lemma shuffle_loop_permutation (i : nat) (sh : loc) :
  (forall k, unit_draw (random env k)) ->
  forall (w : World A) (xs : list (option A)),
    heap w !! sh = Some xs -> (i < length xs)%nat ->
    exists ys,
      shuffle_loop env i sh w =
        (Ok tt, mkWorld (<[sh := ys]> (heap w)) (draws w + i) (clock w) (log w)) /\
      ys ≡ₚ xs.
Proof.
  intros Hunit. induction i as [|i IH]; intros w xs Hxs Hi.
  - exists xs. split; [|done]. cbn [shuffle_loop]. unfold ret.
    by rewrite insert_id, Nat.add_0_r, world_eta.
  - rewrite (shuffle_step i sh w xs Hxs). cbv zeta.
    set (j := floor_mul (random env (draws w)) (Z.of_nat (S i) + 1)).
    assert (Hj : 0 <= j < Z.of_nat (S i) + 1).
    { apply floor_mul_range; [apply Hunit | lia]. }
    pose proof (js_swap_permutation xs (S i) j Hi ltac:(lia)) as Hswap.
    set (xs' := js_set _ j _) in *.
    edestruct (IH (mkWorld (<[sh := xs']> (heap w)) (S (draws w)) (clock w) (log w)) xs')
      as (ys & Hrun & Hperm).
    { cbn [heap]. by rewrite lookup_insert_eq. }
    { rewrite (Permutation_length Hswap). lia. }
    exists ys. split; [|by rewrite Hperm].
    rewrite Hrun. cbn [heap draws clock log]. rewrite insert_insert_eq.
    do 2 f_equal. lia.
Qed.

Lemma shuffleArray_run (array : loc) (w : World A) :
  let xs := array_at w array in
  let sh := fresh (dom (heap w)) in
  shuffleArray env array w =
  match shuffle_loop env (Z.to_nat (Z.of_nat (length xs) - 1)) sh
          (mkWorld (<[sh := xs]> (heap w)) (draws w) (clock w) (log w)) with
  | (Ok _, w') => (Ok sh, w')
  | (Throw e, w') => (Throw e, w')
  end.
Proof.
  intros xs sh. unfold shuffleArray.
  unfold bind at 1. unfold contents at 1.
  unfold bind at 1. unfold alloc at 1.
  unfold bind at 1. unfold array_length at 1.
  unfold array_at at 1. cbn [heap]. fold sh. rewrite lookup_insert_eq. cbn [default].
  fold xs. unfold bind, ret. by destruct (shuffle_loop _ _ _ _) as [[[]|e] w'].
Qed.

Lemma fresh_not_allocated (w : World A) (a : loc) (xs : list (option A)) :
  heap w !! a = Some xs -> a ≠ fresh (dom (heap w)).
Proof.
  intros Hxs ->. apply (is_fresh (dom (heap w))). by eapply elem_of_dom_2.
Qed.

(** C5: the shuffle returns an array of the same length that holds every
    element of its input exactly once: a permutation of the input. *)
Theorem shuffleArray_permutation (array : loc) (w : World A) (xs : list (option A)) :
  heap w !! array = Some xs ->
  (forall k, unit_draw (random env k)) ->
  exists shuffled ys w',
    shuffleArray env array w = (Ok shuffled, w') /\
    heap w' !! shuffled = Some ys /\
    length ys = length xs /\
    ys ≡ₚ xs.
Proof.
  intros Hxs Hunit. rewrite shuffleArray_run. cbv zeta.
  unfold array_at. rewrite Hxs. change (default [] (Some xs)) with xs.
  set (sh := fresh (dom (heap w))).
  set (w1 := mkWorld (<[sh := xs]> (heap w)) (draws w) (clock w) (log w)).
  destruct xs as [|x xs'].
  - exists sh, [], w1. cbn. split; [done|]. by rewrite lookup_insert_eq.
  - destruct (shuffle_loop_permutation (Z.to_nat (Z.of_nat (length (x :: xs')) - 1)) sh
                Hunit w1 (x :: xs')) as (ys & Hrun & Hperm).
    { cbn [w1 heap]. by rewrite lookup_insert_eq. }
    { cbn [length]. lia. }
    rewrite Hrun. eexists sh, ys, _. split; [reflexivity|].
    cbn [heap w1]. rewrite lookup_insert_eq.
    split; [done|]. split; [by apply Permutation_length | done].
Qed.

(** C6: the shuffle does not change its input: after the call the input
    array holds the same elements in the same order; the reordering
    happens in a new array, and no other array is touched. *)
Theorem shuffleArray_keeps_input (array : loc) (w : World A) (xs : list (option A)) :
  heap w !! array = Some xs ->
  exists shuffled w',
    shuffleArray env array w = (Ok shuffled, w') /\
    shuffled ≠ array /\
    heap w !! shuffled = None /\
    heap w' !! array = Some xs /\
    (forall a, a ≠ shuffled -> heap w' !! a = heap w !! a).
Proof.
  intros Hxs. rewrite shuffleArray_run. cbv zeta.
  set (sh := fresh (dom (heap w))).
  match goal with |- context [shuffle_loop env ?i sh ?w1] =>
    destruct (shuffle_loop_frame i sh w1) as (w' & Hrun & Hheap & _) end.
  rewrite Hrun. exists sh, w'. split; [done|].
  assert (Hne : array ≠ sh) by by eapply fresh_not_allocated.
  assert (Hframe : forall a, a ≠ sh -> heap w' !! a = heap w !! a).
  { intros a Ha. rewrite Hheap by done. cbn [heap]. by rewrite lookup_insert_ne. }
  split; [done|]. split; [apply not_elem_of_dom, is_fresh|].
  split; [by rewrite Hframe | done].
Qed.
End Shuffle.


Lemma shuffleArray_permutation_witness :
  exists shuffled ys w',
    shuffleArray sample_env 1%positive sample_heap = (Ok shuffled, w') /\
    heap w' !! shuffled = Some ys /\
    ys ≡ₚ [Some 10; Some 20; None; Some 30; Some 20].
Proof.
  assert (Hin : heap sample_heap !! 1%positive = Some [Some 10; Some 20; None; Some 30; Some 20])
    by reflexivity.
  assert (Hunit : forall k, unit_draw (random sample_env k)).
  { intros k. apply unit_drawb_spec. cbn. unfold sample_draw.
    destruct (Nat.even k); reflexivity. }
  destruct (shuffleArray_permutation sample_env 1%positive sample_heap _ Hin Hunit)
    as (sh & ys & w' & Hrun & Hys & _ & Hperm).
  exists sh, ys, w'. exact (conj Hrun (conj Hys Hperm)).
Defined.

Lemma shuffleArray_keeps_input_witness :
  exists shuffled w',
    shuffleArray sample_env 1%positive sample_heap = (Ok shuffled, w') /\
    heap w' !! 1%positive = Some [Some 10; Some 20; None; Some 30; Some 20].
Proof.
  assert (Hin : heap sample_heap !! 1%positive = Some [Some 10; Some 20; None; Some 30; Some 20])
    by reflexivity.
  destruct (shuffleArray_keeps_input sample_env 1%positive sample_heap _ Hin)
    as (sh & w' & Hrun & _ & _ & Hkept & _).
  exists sh, w'. exact (conj Hrun Hkept).
Defined.

Example shuffle_sample :
  let r := shuffleArray sample_env 1%positive sample_heap in
  r.1 = Ok 2%positive /\
  heap r.2 !! 2%positive = Some [Some 10; Some 20; Some 20; Some 30; None] /\
  heap r.2 !! 1%positive = Some [Some 10; Some 20; None; Some 30; Some 20].
Proof. vm_compute. done. Qed.

(** ** Counting *)

Lemma filter_partition_length {T} (f : T -> bool) (l : list T) :
  (length (List.filter f l) + length (List.filter (fun x => negb (f x)) l) = length l)%nat.
Proof.
  induction l as [|x l IH]; [done|]. cbn. destruct (f x); cbn; lia.
Qed.

(** ** Effects of the steps *)

Section Effects.
Context {A : Type}.
Variable env : Env.
Variable P : Event -> Prop.

Lemma effects_ret {T} (v : T) (Q : T -> Prop) : Q v -> effects (@ret A T v) P Q.
Proof. intros Hv w. split; [by exists [] | done]. Qed.

Lemma effects_throw {T} msg (Q : T -> Prop) : effects (@throw A T msg) P Q.
Proof. intros w. split; [by exists [] | done]. Qed.

Lemma effects_lift {T} (r : Result T) (Q : T -> Prop) :
  (forall v, r = Ok v -> Q v) -> effects (@lift A T r) P Q.
Proof. intros Hr w. split; [by exists [] |]. cbn. destruct r; auto. Qed.

Lemma effects_bind {T U} (c : M A T) (k : T -> M A U) (Q1 : T -> Prop) (Q2 : U -> Prop) :
  effects c P Q1 -> (forall v, Q1 v -> effects (k v) P Q2) -> effects (bind c k) P Q2.
Proof.
  intros Hc Hk w. destruct (Hc w) as [(evs & Hlog & HP) HQ]. unfold bind.
  destruct (c w) as [[v|e] w1]; cbn in *.
  - destruct (Hk v HQ w1) as [(evs' & Hlog' & HP') HQ'].
    split; [|done]. exists (evs' ++ evs). rewrite Hlog', Hlog, app_assoc.
    split; [done|]. by apply Forall_app.
  - split; [eauto | done].
Qed.

Lemma effects_weaken {T} (c : M A T) (Q Q' : T -> Prop) :
  effects c P Q -> (forall v, Q v -> Q' v) -> effects c P Q'.
Proof.
  intros Hc HQ w. destruct (Hc w) as [Hlog Hv]. split; [done|].
  destruct (c w).1; auto.
Qed.

Lemma effects_call {T} ev (reply : list Event -> Result T) (Q : T -> Prop) :
  P ev -> (forall l v, reply l = Ok v -> Q v) -> effects (@call A T ev reply) P Q.
Proof.
  intros Hev Hr w. split.
  - exists [ev]. split; [done|]. by repeat constructor.
  - cbn. destruct (reply _) eqn:E; eauto.
Qed.

Lemma effects_try_catch {T} (body : M A T) handler (Q : T -> Prop) :
  effects body P Q -> (forall e, effects (handler e) P Q) ->
  effects (try_catch body handler) P Q.
Proof.
  intros Hb Hh w. destruct (Hb w) as [(evs & Hlog & HP) HQ]. unfold try_catch.
  destruct (body w) as [[v|e] w1]; cbn in *.
  - split; [eauto | done].
  - destruct (Hh e w1) as [(evs' & Hlog' & HP') HQ'].
    split; [|done]. exists (evs' ++ evs). rewrite Hlog', Hlog, app_assoc.
    split; [done|]. by apply Forall_app.
Qed.

(** Steps that make no call. *)
Lemma effects_silent {T} (c : M A T) (Q : T -> Prop) :
  (forall w, log (c w).2 = log w) ->
  (forall w v, (c w).1 = Ok v -> Q v) ->
  effects c P Q.
Proof.
  intros Hlog HQ w. split; [exists []; by rewrite Hlog |].
  destruct (c w).1 eqn:E; eauto.
Qed.

Lemma effects_Date_now (Q : string -> Prop) :
  (forall s, Q s) -> effects (@Date_now A env) P Q.
Proof. intros HQ. apply effects_silent; [done|]. auto. Qed.

Lemma effects_getRandomInt_draw min max :
  effects (@getRandomInt A env min max) P
    (fun n => exists k, n = randomInt min max (random env k)).
Proof. apply effects_silent; [done|]. intros w v [= <-]. eauto. Qed.

Lemma effects_getRandomElement_draw {T} (array : list T) :
  effects (@getRandomElement A env T array) P
    (fun v => exists k, v = js_index array (floor_mul (random env k)
                                              (Z.of_nat (length array)))).
Proof. apply effects_silent; [done|]. intros w v [= <-]. eauto. Qed.

Lemma effects_countdown seconds label :
  P (ECountdown seconds label) -> effects (@countdown A seconds label) P (fun _ => True).
Proof. intros. by apply effects_call. Qed.

Lemma effects_array_length a : effects (@array_length A a) P (fun _ => True).
Proof. by apply effects_silent. Qed.

Lemma effects_alloc xs : effects (@alloc A xs) P (fun _ => True).
Proof. by apply effects_silent. Qed.

Lemma effects_shuffleArray a : effects (@shuffleArray A env a) P (fun _ => True).
Proof.
  apply effects_silent; [|done]. intros w. rewrite shuffleArray_run. cbv zeta.
  match goal with |- context [shuffle_loop env ?i ?sh ?w1] =>
    destruct (shuffle_loop_frame env i sh w1) as (w' & Hrun & _ & _ & Hlog) end.
  by rewrite Hrun.
Qed.
End Effects.

(** Solves [effects c P Q] for straight-line code; [admit_event] proves
    that [P] holds of each call made, [Q] is only needed at the final
    [ret].  Random integers are kept as a function of their draw. *)
Ltac eff admit_event :=
  repeat first
    [ apply effects_ret; try done
    | apply effects_throw
    | eapply effects_bind; [ apply effects_getRandomInt_draw | intros ? [? ->] ]
    | eapply effects_bind with (Q1 := fun _ => True); [ | intros ? _ ]
    | apply effects_call; [ admit_event | done ]
    | apply effects_lift; done
    | apply effects_silent; done
    | apply effects_Date_now; done
    | apply effects_countdown; admit_event
    | match goal with |- effects (if ?b then _ else _) _ _ => destruct b end
    | match goal with |- effects (match ?x with _ => _ end) _ _ => destruct x end ].

Section ScriptEffects.
Variable env : Env.
Variable P : Event -> Prop.
Hypothesis HP : admits env P.

Local Ltac admit_event :=
  first [ apply (admits_plain _ _ HP); reflexivity
        | apply (admits_deploy _ _ HP)
        | apply (admits_setMessage _ _ HP)
        | apply (admits_update _ _ HP)
        | apply (admits_wallet _ _ HP) ].

Lemma effects_deployContract wallet art dn wi :
  effects (deployContract env wallet art dn wi) P
    (fun o => deployNumber o = dn /\ walletIndex o = wi).
Proof.
  unfold deployContract, deployAttempt.
  apply effects_try_catch; [|intros e]; eff admit_event.
Qed.

Lemma effects_deploy_loop wallet art wi dc ih :
  (exists k, ih = default 0 (js_index CONFIG.INTERVAL_OPTIONS
                              (floor_mul (random env k) 3))) ->
  forall todo i results,
    effects (deploy_loop env todo i wallet art wi dc ih results) P
      (fun rs => deployNumber <$> rs =
                 (deployNumber <$> results) ++
                 ((fun k => wi * 100 + k + 1) <$> seqZ i (Z.of_nat todo))).
Proof.
  intros [k ->]. induction todo as [|todo IH]; intros i results.
  - apply effects_ret. cbn. by rewrite app_nil_r.
  - cbn [deploy_loop].
    eapply effects_bind; [apply effects_deployContract|].
    intros o [Hdn _]. cbv beta.
    eapply effects_bind with (Q1 := fun _ => True).
    { destruct (i <? dc - 1); [|by apply effects_ret].
      eapply effects_bind; [apply effects_getRandomInt_draw|]. intros v [k' ->].
      apply effects_countdown, (admits_next _ _ HP). }
    intros _ _. eapply effects_weaken; [apply IH|].
    intros rs ->. rewrite fmap_app, <- app_assoc. f_equal.
    rewrite Nat2Z.inj_succ, (seqZ_cons i) by lia. cbn.
    rewrite Hdn. do 3 f_equal; lia.
Qed.

Lemma effects_processWallet wallet art wi n :
  effects (processWallet env wallet art wi n) P
    (fun rs => exists k,
       let deployCount := randomInt CONFIG.MIN_DEPLOY_COUNT CONFIG.MAX_DEPLOY_COUNT
                            (random env k) in
       deployNumber <$> rs =
       (fun attempt => wi * 100 + attempt + 1) <$> seqZ 0 (Z.of_nat (Z.to_nat deployCount))).
Proof.
  unfold processWallet.
  eapply effects_bind; [apply effects_getRandomInt_draw|]. intros dc [k ->].
  eapply effects_bind; [apply effects_getRandomElement_draw|]. intros ih [k' ->].
  destruct wallet as [wallet|]; [|apply effects_throw].
  eapply effects_weaken; [apply effects_deploy_loop; eauto|].
  intros rs Hrs. exists k. exact Hrs.
Qed.

Lemma effects_wallets_loop (Hunit : forall k, unit_draw (random env k)) sh art :
  forall todo i allResults,
    0 <= i ->
    NoDup (deployNumber <$> allResults) ->
    Forall (fun o => 1 <= deployNumber o <= i * 100) allResults ->
    effects (wallets_loop env todo i sh art allResults) P
      (fun rs => NoDup (deployNumber <$> rs)).
Proof.
  induction todo as [|todo IH]; intros i allResults Hi Hnd Hbound.
  - by apply effects_ret.
  - cbn [wallets_loop].
    eapply effects_bind with (Q1 := fun _ => True); [eff admit_event|]. intros wallet _.
    eapply effects_bind with (Q1 := fun _ => True); [eff admit_event|]. intros n _.
    eapply effects_bind; [by apply effects_processWallet|].
    intros rs (k & Hrs). cbv beta zeta in Hrs |- *.
    pose proof (randomInt_range CONFIG.MIN_DEPLOY_COUNT CONFIG.MAX_DEPLOY_COUNT _
                  (Hunit k) ltac:(done)) as Hdc.
    set (dc := randomInt _ _ _) in Hdc, Hrs.
    unfold CONFIG.MIN_DEPLOY_COUNT, CONFIG.MAX_DEPLOY_COUNT in Hdc.
    assert (Hnd' : NoDup (deployNumber <$> rs)).
    { rewrite Hrs. apply NoDup_fmap_2; [|apply NoDup_seqZ]. intros a b. lia. }
    assert (Hbound' : Forall (fun o => i * 100 + 1 <= deployNumber o <= i * 100 + 4) rs).
    { apply Forall_fmap with (f := deployNumber)
        (P := fun d => i * 100 + 1 <= d <= i * 100 + 4).
      rewrite Hrs. apply Forall_fmap, Forall_forall.
      intros a Ha%elem_of_seqZ. cbn. lia. }
    eapply effects_bind with (Q1 := fun _ => True); [eff admit_event|]. intros _ _.
    apply IH; [lia | |].
    + rewrite fmap_app. apply NoDup_app. split; [done|]. split; [|done].
      intros d (o & -> & Ho)%list_elem_of_fmap (o' & Heq & Ho')%list_elem_of_fmap.
      rewrite Forall_forall in Hbound, Hbound'.
      specialize (Hbound o Ho). specialize (Hbound' o' Ho'). lia.
    + apply Forall_app. split.
      * eapply Forall_impl; [done|]. cbn. lia.
      * eapply Forall_impl; [done|]. cbn. lia.
Qed.

(** Without any assumption on the draws the loop still makes only the
    calls that [P] admits. *)
Lemma effects_wallets_loop_any sh art :
  forall todo i allResults,
    effects (wallets_loop env todo i sh art allResults) P (fun _ => True).
Proof.
  induction todo as [|todo IH]; intros i allResults; [by apply effects_ret|].
  cbn [wallets_loop].
  eapply effects_bind with (Q1 := fun _ => True); [eff admit_event|]. intros wallet _.
  eapply effects_bind with (Q1 := fun _ => True); [eff admit_event|]. intros n _.
  eapply effects_bind; [apply effects_processWallet|]. intros rs _.
  eapply effects_bind with (Q1 := fun _ => True); [eff admit_event|]. intros _ _.
  apply IH.
Qed.

Lemma effects_compileContract source :
  effects (compileContract env source) P (fun _ => True).
Proof. unfold compileContract. eff admit_event. Qed.

Lemma effects_getPrivateKeys : effects (getPrivateKeys env) P (fun _ => True).
Proof. unfold getPrivateKeys. eff admit_event. Qed.

Lemma effects_summarize allResults :
  effects (summarize env allResults) P
    (fun s => deployments s = allResults /\ summary_counts s).
Proof.
  unfold summarize.
  eapply effects_bind with (Q1 := fun _ => True); [eff admit_event|]. intros start _.
  eapply effects_bind with (Q1 := fun _ => True); [eff admit_event|]. intros finish _.
  apply effects_ret. split; [done|]. unfold summary_counts. cbn.
  pose proof (filter_partition_length success allResults). lia.
Qed.

Lemma effects_main_body (G : list Outcome -> Prop) :
  (forall todo sh art, effects (wallets_loop env todo 0 sh art []) P G) ->
  (forall s, G (deployments s) -> summary_counts s ->
             P (EWriteFile "deployments.json" s)) ->
  effects (main_body env) P (fun _ => True).
Proof.
  intros HG Hwrite. unfold main_body. cbv zeta.
  eapply effects_bind; [by apply effects_compileContract|]. intros art _.
  eapply effects_bind; [by apply effects_getPrivateKeys|]. intros keys _.
  destruct (_ =? _)%nat; [apply effects_throw|].
  eapply effects_bind with (Q1 := fun _ => True); [eff admit_event|]. intros wallets _.
  eapply effects_bind; [apply effects_alloc|]. intros arr _.
  eapply effects_bind; [apply effects_shuffleArray|]. intros sh _.
  eapply effects_bind; [apply effects_array_length|]. intros n _.
  eapply effects_bind; [apply HG|]. intros allResults Hall.
  eapply effects_bind; [by apply effects_summarize|]. intros s [Hs Hcounts].
  eapply effects_bind with (Q1 := fun _ => True); [|intros; by apply effects_ret].
  apply effects_call; [|done]. apply Hwrite; [by rewrite Hs | done].
Qed.
End ScriptEffects.

(** ** The whole run *)

Lemma interval_pick u :
  unit_draw u ->
  default 0 (js_index CONFIG.INTERVAL_OPTIONS (floor_mul u 3)) ∈ CONFIG.INTERVAL_OPTIONS.
Proof.
  intros Hu. pose proof (floor_mul_range u 3 Hu ltac:(lia)) as Hj.
  unfold js_index. destruct (Z.ltb_spec (floor_mul u 3) 0); [lia|].
  assert (Hcases : (Z.to_nat (floor_mul u 3) = 0 \/ Z.to_nat (floor_mul u 3) = 1 \/
                    Z.to_nat (floor_mul u 3) = 2)%nat) by lia.
  destruct Hcases as [Hc | [Hc | Hc]]; rewrite Hc; cbn;
    apply list_elem_of_In; cbn; tauto.
Qed.

Lemma admits_run_event env (G : list Outcome -> Prop) : admits env (run_event G).
Proof. by split; intros; try match goal with ev : Event |- _ => destruct ev end. Qed.

Lemma admits_within_bounds env :
  (forall k, unit_draw (random env k)) -> admits env within_bounds.
Proof.
  intros Hunit. split.
  - by intros [] ?.
  - intros k. by apply randomInt_range.
  - intros k msg. by apply randomInt_range.
  - intros k. change (2 <= randomInt 2 5 (random env k) <= 5). by apply randomInt_range.
  - intros k k' rest. unfold within_bounds.
    assert (Hlabel : startsWith "Next deployment" ("Next deployment (#" +:+ rest) = true)
      by reflexivity.
    rewrite Hlabel.
    pose proof (interval_pick _ (Hunit k)) as Hin.
    pose proof (randomInt_range (-600) 600 _ (Hunit k') ltac:(lia)) as Hv.
    eexists. split; [exact Hin|].
    apply list_elem_of_In in Hin. cbn in Hin. unfold totalWait. lia.
  - intros k. change (5 <= randomInt 5 30 (random env k) <= 30). by apply randomInt_range.
Qed.

Lemma main_log env w : log (main env w).2 = log (main_body env w).2.
Proof. unfold main. by destruct (main_body env w) as [[|] ?]. Qed.

(** Every call the run adds to the log satisfies what the run
    guarantees of its calls. *)
Lemma main_logged env (P : Event -> Prop) w ev :
  effects (main_body env) P (fun _ => True) ->
  ev ∈ log (main env w).2 -> ev ∉ log w -> P ev.
Proof.
  intros Heff Hin Hold. rewrite main_log in Hin.
  destruct (Heff w) as [(evs & Hlog & Hevs) _]. rewrite Hlog in Hin.
  apply elem_of_app in Hin as [Hin|Hin]; [|done].
  rewrite Forall_forall in Hevs. exact (Hevs _ Hin).
Qed.

Lemma main_within_bounds env :
  (forall k, unit_draw (random env k)) ->
  effects (main_body env) within_bounds (fun _ => True).
Proof.
  intros Hunit. apply effects_main_body with (G := fun _ => True).
  - by apply admits_within_bounds.
  - intros. by apply effects_wallets_loop_any, admits_within_bounds.
  - done.
Qed.

(** ** Properties of the run *)

Lemma compileContract_log env source (w : World Wallet) :
  log (compileContract env source w).2 = ECompile source :: log w.
Proof.
  unfold compileContract, bind, call, throw, ret. cbn [fst snd log].
  destruct (solc env source) as [[errs ctr]|e]; [|done]. cbn [errors contracts].
  destruct errs as [errs|].
  - destruct (Nat.ltb _ _); [done|]. by destruct ctr as [[? ?]|].
  - by destruct ctr as [[? ?]|].
Qed.

Lemma getPrivateKeys_log env (w : World Wallet) :
  log (getPrivateKeys env w).2 = EReadFile "pk.txt" :: log w.
Proof.
  unfold getPrivateKeys, bind, call. cbn. by destruct (readFile env _).
Qed.

Lemma error_filter_nonempty (errs : list SolcError) :
  Exists (fun e => severity e = "error") errs ->
  (0 <? length (List.filter (fun e => String.eqb (severity e) "error") errs))%nat = true.
Proof.
  intros Hex. apply Nat.ltb_lt. induction Hex as [e l He|e l _ IH]; cbn.
  - rewrite He. cbn. lia.
  - destruct (String.eqb _ _); cbn; lia.
Qed.

(** A compiler error is what makes [compileContract] throw. *)
Lemma compileContract_error env source (w : World Wallet) out errs :
  solc env source = Ok out ->
  errors out = Some errs ->
  Exists (fun e => severity e = "error") errs ->
  (compileContract env source w).1 = Throw (mkError "Contract compilation failed").
Proof.
  intros Hout Herrs Hex. unfold compileContract, bind, call, throw, ret. cbn [fst snd log].
  rewrite Hout, Herrs. by rewrite (error_filter_nonempty errs Hex).
Qed.

(** C3: within a run every outcome has its own [deployNumber]: wallet
    number [walletIndex] yields the numbers [walletIndex * 100 + attempt + 1]
    for [attempt] below a count of 2 to 4, so the outcomes of all wallets
    together, and those of every summary written, carry no number twice. *)
Theorem deployNumbers_unique (env : Env) :
  (forall k, unit_draw (random env k)) ->
  (forall wallet art walletIndex' totalWallets w rs w',
     processWallet env wallet art walletIndex' totalWallets w = (Ok rs, w') ->
     exists deployCount,
       2 <= deployCount <= 4 /\
       deployNumber <$> rs =
       (fun attempt => walletIndex' * 100 + attempt + 1) <$> seqZ 0 deployCount) /\
  (forall todo shuffledWallets art w allResults w',
     wallets_loop env todo 0 shuffledWallets art [] w = (Ok allResults, w') ->
     NoDup (deployNumber <$> allResults)) /\
  (forall w path s,
     EWriteFile path s ∈ log (main env w).2 ->
     EWriteFile path s ∉ log w ->
     NoDup (deployNumber <$> deployments s)).
Proof.
  intros Hunit.
  assert (Hloop : forall G todo sh art,
            effects (wallets_loop env todo 0 sh art [])
              (run_event G) (fun rs => NoDup (deployNumber <$> rs))).
  { intros G todo sh art.
    apply effects_wallets_loop; [apply admits_run_event | done | lia | constructor | constructor]. }
  split; [|split].
  - intros wallet art wi n w rs w' Hrun.
    destruct (effects_processWallet env _ (admits_run_event env (fun _ => True))
                wallet art wi n w) as [_ HQ].
    rewrite Hrun in HQ. destruct HQ as [k Hrs]. cbv zeta in Hrs.
    pose proof (randomInt_range CONFIG.MIN_DEPLOY_COUNT CONFIG.MAX_DEPLOY_COUNT _
                  (Hunit k) ltac:(done)) as Hdc.
    set (dc := randomInt _ _ _) in Hdc, Hrs.
    unfold CONFIG.MIN_DEPLOY_COUNT, CONFIG.MAX_DEPLOY_COUNT in Hdc.
    exists dc. split; [done|]. by rewrite Z2Nat.id in Hrs by lia.
  - intros todo sh art w allResults w' Hrun.
    destruct (Hloop (fun _ => True) todo sh art w) as [_ HQ]. by rewrite Hrun in HQ.
  - intros w path s Hin Hold.
    apply (main_logged env (run_event (fun rs => NoDup (deployNumber <$> rs))) w _)
      in Hin as [Hnd _]; [done| |done].
    eapply effects_main_body; [apply admits_run_event | intros; apply Hloop | done].
Qed.

Lemma deployNumbers_unique_witness :
  exists s, head (log (main sample_env empty_world).2) = Some (EWriteFile "deployments.json" s) /\
            NoDup (deployNumber <$> deployments s).
Proof.
  set (l := log (main sample_env empty_world).2).
  assert (Hl : exists s rest, l = EWriteFile "deployments.json" s :: rest).
  { vm_compute. do 2 eexists. reflexivity. }
  destruct Hl as (s & rest & Hl). exists s. split; [by rewrite Hl|].
  assert (Hunit : forall k, unit_draw (random sample_env k)).
  { intros k. apply unit_drawb_spec. cbn. unfold sample_draw.
    destruct (Nat.even k); reflexivity. }
  destruct (deployNumbers_unique sample_env Hunit) as (_ & _ & Hmain).
  apply (Hmain empty_world "deployments.json" s).
  - fold l. rewrite Hl. apply list_elem_of_here.
  - apply not_elem_of_nil.
Defined.

(** C7: in every summary the run writes, the number of successful outcomes
    plus the number of failed ones is the number of outcomes: the two lists
    are the outcomes with and without the [success] flag. *)
Theorem summary_counts_partition (env : Env) (w : World Wallet) (path : string) (s : Summary) :
  EWriteFile path s ∈ log (main env w).2 ->
  EWriteFile path s ∉ log w ->
  successful s = Z.of_nat (length (List.filter success (deployments s))) /\
  failed s = Z.of_nat (length (List.filter (fun r => negb (success r)) (deployments s))) /\
  totalDeployments s = Z.of_nat (length (deployments s)) /\
  successful s + failed s = Z.of_nat (length (deployments s)).
Proof.
  intros Hin Hold.
  apply (main_logged env (run_event (fun _ => True)) w _) in Hin as [_ Hcounts];
    [done| |done].
  eapply effects_main_body; [apply admits_run_event | | done].
  intros. apply effects_wallets_loop_any, admits_run_event.
Qed.

Lemma summary_counts_partition_witness :
  exists s, head (log (main sample_env empty_world).2) = Some (EWriteFile "deployments.json" s) /\
            successful s + failed s = Z.of_nat (length (deployments s)).
Proof.
  set (l := log (main sample_env empty_world).2).
  assert (Hl : exists s rest, l = EWriteFile "deployments.json" s :: rest).
  { vm_compute. do 2 eexists. reflexivity. }
  destruct Hl as (s & rest & Hl). exists s. split; [by rewrite Hl|].
  apply (summary_counts_partition sample_env empty_world "deployments.json" s).
  - fold l. rewrite Hl. apply list_elem_of_here.
  - apply not_elem_of_nil.
Defined.

(** C8: when the contract does not compile, or when no key is loaded, the
    run ends with exit code 1 and writes no summary: all it has called by
    then is the compiler and, in the second case, the key file; the chain
    was not called. *)
Theorem startup_failure_aborts (env : Env) (w : World Wallet) :
  (exists e, (compileContract env getContractSource w).1 = Throw e) \/
  (exists art w1, compileContract env getContractSource w = (Ok art, w1) /\
                  (getPrivateKeys env w1).1 = Ok []) ->
  (main env w).1 = 1 /\
  exists evs, log (main env w).2 = evs ++ log w /\
              Forall (fun ev => is_write ev = false /\ chain_call ev = false) evs /\
              (evs = [ECompile getContractSource] \/
               evs = [EReadFile "pk.txt"; ECompile getContractSource]).
Proof.
  intros [[e He] | (art & w1 & Hc & Hk)].
  - pose proof (compileContract_log env getContractSource w) as Hlog.
    destruct (compileContract env getContractSource w) as [r w1] eqn:Hc.
    cbn in He, Hlog. subst r.
    assert (Hmain : main env w = (1, w1)).
    { unfold main, main_body. cbv zeta. unfold bind at 1. by rewrite Hc. }
    rewrite Hmain. cbn [fst snd]. split; [done|].
    exists [ECompile getContractSource]. rewrite Hlog. split; [done|].
    split; [|by left]. by repeat constructor.
  - pose proof (compileContract_log env getContractSource w) as Hlog.
    pose proof (getPrivateKeys_log env w1) as Hlog1.
    rewrite Hc in Hlog.
    destruct (getPrivateKeys env w1) as [r w2] eqn:Hkeys.
    cbn in Hk, Hlog, Hlog1. subst r.
    assert (Hmain : main env w = (1, w2)).
    { unfold main, main_body. cbv zeta. unfold bind at 1. rewrite Hc.
      unfold bind at 1. by rewrite Hkeys. }
    rewrite Hmain. cbn [fst snd]. split; [done|].
    exists [EReadFile "pk.txt"; ECompile getContractSource]. rewrite Hlog1, Hlog.
    split; [done|]. split; [|by right]. by repeat constructor.
Qed.

Lemma startup_failure_aborts_witness :
  (main nokeys_env empty_world).1 = 1 /\ (main badsolc_env empty_world).1 = 1.
Proof.
  split.
  - apply (startup_failure_aborts nokeys_env empty_world). right.
    eexists _, _. split; vm_compute; reflexivity.
  - apply (startup_failure_aborts badsolc_env empty_world). left.
    eexists. vm_compute. reflexivity.
Defined.

Example main_nokeys :
  main nokeys_env empty_world =
  (1, mkWorld ∅ 0 0 [EReadFile "pk.txt"; ECompile getContractSource]).
Proof. vm_compute. reflexivity. Qed.

Example main_badsolc :
  main badsolc_env empty_world = (1, mkWorld ∅ 0 0 [ECompile getContractSource]).
Proof. vm_compute. reflexivity. Qed.

(** ** Random integers *)

(** C10: for integers [min <= max] below 2^52 in magnitude, where the
    double arithmetic of the script is exact, and every draw of
    [Math.random()] in [0,1), [getRandomInt(min, max)] returns an integer
    of the inclusive range [min, max]; so every random integer of the
    script stays within its bounds: the gas limits, delays and jitter that
    a run passes to the outside world, and the number of deploys per
    wallet. *)
Theorem getRandomInt_within_bounds (env : Env) :
  (forall k, unit_draw (random env k)) ->
  (forall (A : Type) (w : World A) min max,
     - 2 ^ 52 < min -> min <= max -> max < 2 ^ 52 ->
     exists n, (getRandomInt env min max w).1 = Ok n /\ min <= n <= max) /\
  (forall w ev, ev ∈ log (main env w).2 -> ev ∉ log w -> within_bounds ev) /\
  (forall wallet art walletIndex' totalWallets w rs w',
     processWallet env wallet art walletIndex' totalWallets w = (Ok rs, w') ->
     (2 <= length rs <= 4)%nat).
Proof.
  intros Hunit. split; [|split].
  - intros A w min max _ Hmm _. rewrite getRandomInt_run. eexists. split; [reflexivity|].
    by apply randomInt_range.
  - intros w ev. by apply main_logged, main_within_bounds.
  - intros wallet art wi n w rs w' Hrun.
    destruct (effects_processWallet env _ (admits_within_bounds env Hunit)
                wallet art wi n w) as [_ HQ].
    rewrite Hrun in HQ. destruct HQ as [k Hrs]. cbv zeta in Hrs.
    pose proof (randomInt_range CONFIG.MIN_DEPLOY_COUNT CONFIG.MAX_DEPLOY_COUNT _
                  (Hunit k) ltac:(done)) as Hdc.
    set (dc := randomInt _ _ _) in Hdc, Hrs.
    unfold CONFIG.MIN_DEPLOY_COUNT, CONFIG.MAX_DEPLOY_COUNT in Hdc.
    apply (f_equal length) in Hrs. rewrite !length_fmap, length_seqZ in Hrs. lia.
Qed.

Lemma getRandomInt_within_bounds_witness :
  exists n, (getRandomInt sample_env 2 4 (@empty_world Wallet)).1 = Ok n /\ 2 <= n <= 4.
Proof.
  assert (Hunit : forall k, unit_draw (random sample_env k)).
  { intros k. apply unit_drawb_spec. cbn. unfold sample_draw.
    destruct (Nat.even k); reflexivity. }
  apply (proj1 (getRandomInt_within_bounds sample_env Hunit) Wallet empty_world 2 4); lia.
Defined.




Example main_sample_waits :
  List.filter (fun ev => match ev with ECountdown _ _ => true | _ => false end)
    (log (main sample_env empty_world).2) =
  [ECountdown 5 "Updating message in";
   ECountdown 43200 "Next deployment (#4/4)";
   ECountdown 5 "Updating message in";
   ECountdown 43200 "Next deployment (#3/4)";
   ECountdown 5 "Updating message in";
   ECountdown 43200 "Next deployment (#2/4)";
   ECountdown 5 "Updating message in";
   ECountdown 18 "Starting next wallet in";
   ECountdown 5 "Updating message in";
   ECountdown 43200 "Next deployment (#4/4)";
   ECountdown 5 "Updating message in";
   ECountdown 43200 "Next deployment (#3/4)";
   ECountdown 5 "Updating message in";
   ECountdown 43200 "Next deployment (#2/4)";
   ECountdown 5 "Updating message in"].
Proof. vm_compute. reflexivity. Qed.

(** ** The countdown *)

(** X1: for a duration that is not negative, [formatTime] shows only
    seconds below a minute, minutes and seconds below an hour, and hours,
    minutes and seconds from there on; minutes and seconds shown are below
    60 and the parts add up to the duration. *)
Theorem formatTime_parts (seconds : Z) :
  0 <= seconds ->
  let h := seconds / 3600 in
  let m := seconds mod 3600 / 60 in
  let s := seconds mod 60 in
  seconds = h * 3600 + m * 60 + s /\ 0 <= h /\ 0 <= m < 60 /\ 0 <= s < 60 /\
  formatTime seconds =
    if seconds <? 60 then pretty seconds +:+ "s"
    else if seconds <? 3600 then pretty m +:+ "m " +:+ pretty s +:+ "s"
    else pretty h +:+ "h " +:+ pretty m +:+ "m " +:+ pretty s +:+ "s".
Proof.
  intros Hs h m s.
  assert (Hmod : seconds mod 60 = (seconds mod 3600) mod 60).
  { rewrite <- (Z.mul_comm 60 60) at 1. change 3600 with (60 * 60).
    rewrite Z.rem_mul_r by lia. rewrite Z.mul_comm, Z.mod_add by lia.
    by rewrite Z.mod_mod by lia. }
  pose proof (Z.div_mod seconds 3600 ltac:(lia)) as H1.
  pose proof (Z.mod_pos_bound seconds 3600 ltac:(lia)) as H2.
  pose proof (Z.div_mod (seconds mod 3600) 60 ltac:(lia)) as H3.
  pose proof (Z.mod_pos_bound (seconds mod 3600) 60 ltac:(lia)) as H4.
  assert (Hh : 0 <= h) by (apply Z.div_pos; lia).
  assert (Hm : 0 <= m < 60).
  { split; [apply Z.div_pos; lia | apply Z.div_lt_upper_bound; lia]. }
  fold h in H1. fold m in H3. unfold s. rewrite Hmod.
  split; [lia|]. split; [done|]. split; [done|]. split; [lia|].
  unfold formatTime. rewrite !Z.rem_mod_nonneg by lia. fold h m. rewrite Hmod.
  destruct (Z.ltb_spec seconds 60).
  - assert (h = 0) by (apply Z.div_small; lia).
    assert (m = 0) by (apply Z.div_small; rewrite Z.mod_small; lia).
    replace (0 <? h) with false by (symmetry; apply Z.ltb_ge; lia).
    replace (0 <? m) with false by (symmetry; apply Z.ltb_ge; lia).
    do 2 f_equal. rewrite !Z.mod_small; lia.
  - destruct (Z.ltb_spec seconds 3600).
    + assert (h = 0) by (apply Z.div_small; lia).
      replace (0 <? h) with false by (symmetry; apply Z.ltb_ge; lia).
      replace (0 <? m) with true; [done|]. symmetry. apply Z.ltb_lt. lia.
    + replace (0 <? h) with true; [done|]. symmetry. apply Z.ltb_lt.
      apply Z.div_str_pos. lia.
Qed.

Lemma formatTime_parts_witness :
  formatTime 43799 = "12h 9m 59s" /\ 43799 = 12 * 3600 + 9 * 60 + 59.
Proof.
  destruct (formatTime_parts 43799 ltac:(lia)) as (Hsum & _ & _ & _ & Hfmt).
  split; [rewrite Hfmt; vm_compute; reflexivity | lia].
Defined.

Example formatTime_samples :
  formatTime 0 = "0s" /\ formatTime 59 = "59s" /\ formatTime 60 = "1m 0s" /\
  formatTime 3600 = "1h 0m 0s" /\ formatTime 87000 = "24h 10m 0s" /\
  formatTime (-61) = "-1s".
Proof. vm_compute. done. Qed.

Lemma countdown_loop_unfold (fuel : nat) (i : Z) (message : string) :
  (Z.to_nat i <= fuel)%nat ->
  countdown_loop fuel i message =
  ((fun k => i - k) <$> seqZ 0 i) ≫=
    (fun r => [Print (carriage_return +:+ "⏳ " +:+ message +:+ ": " +:+ formatTime r +:+ "   ");
               Sleep 1000]).
Proof.
  revert i. induction fuel as [|fuel IH]; intros i Hfuel.
  - assert (i <= 0) by lia. cbn. by rewrite seqZ_nil by lia.
  - cbn [countdown_loop]. destruct (Z.ltb_spec 0 i) as [Hpos|Hle].
    + rewrite (seqZ_cons 0 i) by lia. cbn. rewrite Z.sub_0_r. do 2 f_equal.
      rewrite IH by lia. f_equal.
      rewrite <- (fmap_add_seqZ 1 0), <- list_fmap_compose.
      replace (Z.pred i) with (i - 1) by lia.
      apply list_fmap_ext. intros _ k _. cbn. lia.
    + by rewrite seqZ_nil by lia.
Qed.

Lemma slept_rounds (line : Z -> string) (ready : string) (l : list Z) :
  slept ((l ≫= (fun r => [Print (line r); Sleep 1000])) ++ [Print ready])
  = 1000 * Z.of_nat (length l).
Proof.
  induction l as [|r l IH]; [done|]. cbn [mbind list_bind app slept foldr] in *.
  unfold slept in IH. rewrite IH. cbn [length]. lia.
Qed.

Lemma countdown_slept (fuel : nat) (seconds : Z) (message : string) :
  (Z.to_nat seconds <= fuel)%nat ->
  slept (countdown_ticks fuel seconds message) = 1000 * Z.max 0 seconds.
Proof.
  intros Hfuel. unfold countdown_ticks. rewrite countdown_loop_unfold by done.
  rewrite slept_rounds, length_fmap, length_seqZ. lia.
Qed.

(** X2: [countdown(seconds, message)] sleeps one second exactly [seconds]
    times (not at all when [seconds] is not positive), prints the
    remaining time [seconds], [seconds - 1], ..., 1 before each sleep and
    ends with the line that says Ready; the loop ends by its own test. *)
Theorem countdown_sleeps_seconds (fuel : nat) (seconds : Z) (message : string) :
  (Z.to_nat seconds <= fuel)%nat ->
  let ticks := countdown_ticks fuel seconds message in
  let line r := carriage_return +:+ "⏳ " +:+ message +:+ ": " +:+ formatTime r +:+ "   " in
  let ready := carriage_return +:+ "✅ " +:+ message +:+ ": Ready!                    "
                 +:+ String newline EmptyString in
  ticks = countdown_ticks (Z.to_nat seconds) seconds message /\
  slept ticks = 1000 * Z.max 0 seconds /\
  printed ticks = ((fun k => line (seconds - k)) <$> seqZ 0 seconds) ++ [ready] /\
  last ticks = Some (Print ready).
Proof.
  intros Hfuel ticks line ready. unfold ticks, countdown_ticks.
  rewrite !countdown_loop_unfold by lia. fold ready.
  split; [done|]. split; [|split].
  - rewrite (slept_rounds line ready), length_fmap, length_seqZ. lia.
  - unfold printed. rewrite omap_app. cbn [omap list_omap]. f_equal.
    induction (seqZ 0 seconds) as [|k l IH]; [done|]. cbn. by rewrite <- IH.
  - by rewrite last_snoc.
Qed.

Lemma countdown_sleeps_seconds_witness :
  slept (countdown_ticks 10 3 "Updating message in") = 3000 /\
  length (printed (countdown_ticks 10 3 "Updating message in")) = 4%nat.
Proof.
  destruct (countdown_sleeps_seconds 10 3 "Updating message in" ltac:(cbn; lia))
    as (_ & Hslept & Hprinted & _).
  split; [exact Hslept | by rewrite Hprinted].
Defined.

(** ** The key file *)

Lemma split_lines_nonempty s : split_lines s ≠ [].
Proof.
  destruct s as [|c s]; [done|]. cbn.
  destruct (Ascii.eqb c newline); [done|]. by destruct (split_lines s).
Qed.

Lemma split_lines_app a b :
  split_lines (a +:+ String newline b) = split_lines a ++ split_lines b.
Proof.
  induction a as [|c a IH].
  - change ("" +:+ String newline b) with (String newline b). cbn [split_lines].
    by rewrite Ascii.eqb_refl.
  - change (String c a +:+ String newline b) with (String c (a +:+ String newline b)).
    cbn [split_lines]. rewrite IH.
    destruct (Ascii.eqb c newline); [done|].
    pose proof (split_lines_nonempty a). by destruct (split_lines a).
Qed.

Lemma split_lines_single s : newline ∉ chars s -> split_lines s = [s].
Proof.
  induction s as [|c s IH]; [done|]. cbn [chars split_lines]. intros Hnl.
  apply not_elem_of_cons in Hnl as [Hc Hs].
  destruct (Ascii.eqb_spec c newline); [done|]. by rewrite IH.
Qed.

Lemma split_lines_no_newline s line : line ∈ split_lines s -> newline ∉ chars line.
Proof.
  revert line. induction s as [|c s IH]; intros line.
  - cbn. intros ->%list_elem_of_singleton. apply not_elem_of_nil.
  - cbn [split_lines]. destruct (Ascii.eqb_spec c newline) as [->|Hc].
    + intros [->|Hin]%elem_of_cons; [apply not_elem_of_nil | by apply IH].
    + pose proof (split_lines_nonempty s).
      destruct (split_lines s) as [|l ls]; [done|].
      intros [->|Hin]%elem_of_cons.
      * cbn. apply not_elem_of_cons. split; [done|]. apply IH, list_elem_of_here.
      * apply IH. by apply list_elem_of_further.
Qed.

Lemma trimStart_chars s c : c ∈ chars (trimStart s) -> c ∈ chars s.
Proof.
  induction s as [|a s IH]; [done|]. cbn [trimStart].
  destruct (is_space a); [|done]. intros Hc. cbn. apply list_elem_of_further. by apply IH.
Qed.

Lemma trimEnd_chars s c : c ∈ chars (trimEnd s) -> c ∈ chars s.
Proof.
  induction s as [|a s IH]; [done|]. cbn [trimEnd].
  destruct (is_space a && String.eqb (trimEnd s) ""); [by intros ?%elem_of_nil|].
  cbn. intros [->|Hc]%elem_of_cons; [apply list_elem_of_here|].
  apply list_elem_of_further. by apply IH.
Qed.

Lemma trimEnd_idemp s : trimEnd (trimEnd s) = trimEnd s.
Proof.
  induction s as [|a s IH]; [done|]. cbn [trimEnd].
  destruct (is_space a && String.eqb (trimEnd s) "") eqn:E; [done|].
  cbn [trimEnd]. by rewrite IH, E.
Qed.

Lemma trimStart_fixed s :
  match s with String a _ => is_space a = false | EmptyString => True end ->
  trimStart s = s.
Proof. destruct s as [|a s]; [done|]. cbn. by intros ->. Qed.

Lemma trimStart_head s :
  match trimStart s with String a _ => is_space a = false | EmptyString => True end.
Proof.
  induction s as [|a s IH]; [done|]. cbn [trimStart].
  by destruct (is_space a) eqn:E.
Qed.

Lemma trimEnd_head s :
  match s with String a _ => is_space a = false | EmptyString => True end ->
  match trimEnd s with String a _ => is_space a = false | EmptyString => True end.
Proof.
  destruct s as [|a s]; [done|]. cbn [trimEnd]. intros Ha. by rewrite Ha.
Qed.

Lemma trim_idemp s : trim (trim s) = trim s.
Proof.
  unfold trim. rewrite (trimStart_fixed (trimEnd (trimStart s))).
  - apply trimEnd_idemp.
  - apply trimEnd_head, trimStart_head.
Qed.

(** X3: every key that [getPrivateKeys] takes from an ASCII key file is
    the trimmed text of one line of the file: it is not empty, does not
    start with [#], has no white space at either end and holds no line
    break. *)
Theorem parse_keys_clean (content key : string) :
  ascii_text content ->
  key ∈ parse_keys content ->
  (exists line, line ∈ split_lines content /\ key = trim line) /\
  key ≠ "" /\
  (forall rest, key ≠ String (Ascii.ascii_of_nat 35) rest) /\
  trim key = key /\
  newline ∉ chars key.
Proof.
  intros _ Hin. unfold parse_keys in Hin.
  apply list_elem_of_In, filter_In in Hin as [Hin Hkeep].
  apply list_elem_of_In, list_elem_of_fmap in Hin as (line & -> & Hline).
  split; [eauto|]. split; [|split; [|split]].
  - intros E. by rewrite E in Hkeep.
  - intros rest E. rewrite E in Hkeep. done.
  - apply trim_idemp.
  - intros Hnl. apply (split_lines_no_newline content line Hline).
    unfold trim in Hnl. by apply trimStart_chars, trimEnd_chars.
Qed.

Lemma parse_keys_clean_witness :
  ascii_text sample_keys /\ "bb22" ∈ parse_keys sample_keys /\ trim "bb22" = "bb22".
Proof.
  assert (Hascii : ascii_text sample_keys).
  { unfold ascii_text. vm_compute chars. repeat constructor. }
  assert (Hin : "bb22" ∈ parse_keys sample_keys).
  { vm_compute parse_keys. apply list_elem_of_further, list_elem_of_here. }
  split; [exact Hascii|]. split; [exact Hin|].
  exact (proj1 (proj2 (proj2 (proj2 (parse_keys_clean _ _ Hascii Hin))))).
Defined.

(** X4: on ASCII texts [getPrivateKeys] handles the file line by line
    and keeps the order of the lines: the keys of two texts joined by a
    line break are the keys of the first followed by the keys of the
    second, and a single line gives its trimmed text, or nothing when that
    is empty or starts with [#]. *)
Theorem parse_keys_by_line (a b line : string) :
  ascii_text a -> ascii_text b -> ascii_text line ->
  newline ∉ chars line ->
  parse_keys (a +:+ String newline b) = parse_keys a ++ parse_keys b /\
  parse_keys line = if keep_line (trim line) then [trim line] else [].
Proof.
  intros _ _ _ Hnl. unfold parse_keys. split.
  - by rewrite split_lines_app, fmap_app, List.filter_app.
  - by rewrite split_lines_single.
Qed.

Lemma parse_keys_by_line_witness :
  parse_keys ("# keys" +:+ String newline " aa11 ") = parse_keys "# keys" ++ parse_keys " aa11 " /\
  parse_keys " bb22 " = ["bb22"].
Proof.
  apply (parse_keys_by_line "# keys" " aa11 " " bb22 ").
  - unfold ascii_text. vm_compute chars. repeat constructor.
  - unfold ascii_text. vm_compute chars. repeat constructor.
  - unfold ascii_text. vm_compute chars. repeat constructor.
  - vm_compute chars. intros Hin.
    repeat (apply elem_of_cons in Hin as [Hin|Hin]; [discriminate Hin|]).
    by apply elem_of_nil in Hin.
Defined.

Example parse_keys_edge :
  parse_keys (String newline (String newline "")) = [] /\
  parse_keys ("  # note" +:+ String newline "  ") = [] /\
  parse_keys ("k1" +:+ String (Ascii.ascii_of_nat 13) (String newline "k1")) = ["k1"; "k1"].
Proof. vm_compute. done. Qed.

(** ** Compiling *)

Lemma error_filter_empty (errs : list SolcError) :
  Forall (fun e => severity e ≠ "error") errs ->
  List.filter (fun e => String.eqb (severity e) "error") errs = [].
Proof.
  induction 1 as [|e l He _ IH]; [done|]. cbn.
  by destruct (String.eqb_spec (severity e) "error").
Qed.

(** X5: [compileContract] returns an artifact exactly when the compiler
    answers, none of its diagnostics has severity [error] and the output
    holds the contract; warnings do not stop it, and the bytecode it
    returns is the compiler's, prefixed with [0x].  Whatever happens, the
    compiler is called once and nothing else. *)
Theorem compileContract_returns_iff (env : Env) (source : string) (w : World Wallet)
    (art : Artifact) :
  ((compileContract env source w).1 = Ok art <->
   exists out a object,
     solc env source = Ok out /\
     (forall errs, errors out = Some errs ->
                   Forall (fun e => severity e ≠ "error") errs) /\
     contracts out = Some (a, object) /\
     art = mkArtifact a ("0x" +:+ object)) /\
  log (compileContract env source w).2 = ECompile source :: log w.
Proof.
  split; [|apply compileContract_log].
  unfold compileContract, bind, call, throw, ret. cbn [fst snd log].
  destruct (solc env source) as [[errs ctr]|e] eqn:Hsolc; cbn [errors contracts].
  2:{ split; [done|]. by intros (? & ? & ? & ? & _). }
  destruct errs as [errs|].
  - destruct (Nat.ltb_spec 0 (length (List.filter
                (fun e => String.eqb (severity e) "error") errs))) as [Hlt|Hge].
    + split; [done|]. intros (out & a & obj & [= <-] & Hno & _). cbn in Hno.
      rewrite (error_filter_empty errs (Hno errs eq_refl)) in Hlt. cbn in Hlt. lia.
    + assert (Hno : Forall (fun e => severity e ≠ "error") errs).
      { apply Forall_forall. intros e He Hsev.
        assert (e ∈ List.filter (fun e => String.eqb (severity e) "error") errs).
        { apply list_elem_of_In, filter_In. split; [by apply list_elem_of_In|].
          by apply String.eqb_eq. }
        destruct (List.filter _ errs); [by apply elem_of_nil in H | cbn in Hge; lia]. }
      destruct ctr as [[a obj]|]; cbn.
      * split.
        -- intros [= <-]. exists (mkSolcOutput (Some errs) (Some (a, obj))), a, obj.
           split; [done|]. split; [by intros ? [= <-]|]. done.
        -- by intros (out & a' & obj' & [= <-] & _ & [= <- <-] & ->).
      * split; [done|]. by intros (out & a' & obj' & [= <-] & _ & ? & _).
  - destruct ctr as [[a obj]|]; cbn.
    + split.
      * intros [= <-]. exists (mkSolcOutput None (Some (a, obj))), a, obj.
        split; [done|]. split; [by intros ? [=]|]. done.
      * by intros (out & a' & obj' & [= <-] & _ & [= <- <-] & ->).
    + split; [done|]. by intros (out & a' & obj' & [= <-] & _ & ? & _).
Qed.

Example compile_sample :
  (compileContract sample_env getContractSource empty_world).1 =
    Ok (mkArtifact "[]" "0x6080604052") /\
  (compileContract badsolc_env getContractSource empty_world).1 =
    Throw (mkError "Contract compilation failed").
Proof. vm_compute. done. Qed.

(** ** What the random picks can yield *)

Lemma round53_nat_trunc p :
  0 < p -> 53 <= Z.log2 p ->
  p / 2 ^ (Z.log2 p - 52) * 2 ^ (Z.log2 p - 52) <= round53_nat p.
Proof.
  intros Hp HL. unfold round53_nat.
  destruct (Z.ltb_spec (Z.log2 p) 53); [lia|]. cbv zeta.
  rewrite Z.shiftl_mul_pow2, Z.shiftr_div_pow2 by lia.
  assert (0 < 2 ^ (Z.log2 p - 52)) by (apply Z.pow_pos_nonneg; lia).
  destruct (_ || _); nia.
Qed.

(** The draw [ceil(j * 2^53 / n) * 2^-53] is sent to [j]. *)
Lemma floor_mul_onto n j :
  0 <= j < n -> n <= 2 ^ 52 ->
  unit_draw (mkDraw ((j * 2 ^ 53 + n - 1) / n) 53) /\
  floor_mul (mkDraw ((j * 2 ^ 53 + n - 1) / n) 53) n = j.
Proof.
  intros Hj Hn. set (m := (j * 2 ^ 53 + n - 1) / n).
  pose proof (Z.div_mod (j * 2 ^ 53 + n - 1) n ltac:(lia)) as Hdm.
  pose proof (Z.mod_pos_bound (j * 2 ^ 53 + n - 1) n ltac:(lia)) as Hr.
  fold m in Hdm.
  assert (Hlo : j * 2 ^ 53 <= m * n) by lia.
  assert (Hhi : m * n <= j * 2 ^ 53 + n - 1) by lia.
  assert (Hm : 0 <= m < 2 ^ 53) by nia.
  split; [unfold unit_draw; cbn [mant expo]; lia|].
  unfold floor_mul. cbn [mant expo]. set (p := m * n) in *.
  symmetry. apply Z.div_unique_pos with (r := round53 p - j * 2 ^ 53); [|lia].
  unfold round53. destruct (Z.eq_dec p 0) as [Hz|Hnz].
  { rewrite Hz. cbn. lia. }
  rewrite Z.sgn_pos, Z.mul_1_l, Z.abs_eq by lia.
  destruct (Z.lt_ge_cases (Z.log2 p) 53) as [Hsmall|Hbig].
  { unfold round53_nat. replace (Z.log2 p <? 53) with true by (symmetry; by apply Z.ltb_lt).
    assert (p < 2 ^ 53) by (apply Z.log2_lt_pow2; lia). lia. }
  set (s := Z.log2 p - 52).
  assert (Hs : 1 <= s <= 52).
  { split; [unfold s; lia|]. assert (Z.log2 p < 105); [|unfold s; lia].
    apply Z.log2_lt_pow2; [lia|]. nia. }
  assert (H2s : 0 < 2 ^ s) by (apply Z.pow_pos_nonneg; lia).
  assert (H2s' : 2 ^ s <= 2 ^ 52) by (apply Z.pow_le_mono_r; lia).
  pose proof (round53_nat_trunc p ltac:(lia) Hbig) as Htrunc. fold s in Htrunc.
  pose proof (round53_nat_near p ltac:(lia) Hbig) as Hnear. cbv zeta in Hnear. fold s in Hnear.
  assert (Hmult : j * 2 ^ 53 = j * 2 ^ (53 - s) * 2 ^ s).
  { rewrite <- Z.mul_assoc, <- Z.pow_add_r by lia. do 2 f_equal. lia. }
  assert (Hq : j * 2 ^ (53 - s) <= p / 2 ^ s).
  { apply Z.div_le_lower_bound; [done|]. lia. }
  split; [nia | lia].
Qed.



(** X7: [getRandomElement] returns an element of a non-empty array and
    [undefined] on the empty array; every element of the array can be the
    one returned; [getRandomMessage] always returns one of the eight
    messages. *)
Theorem getRandomElement_picks (env : Env) (A T : Type) (array : list T) (w : World A) :
  unit_draw (random env (draws w)) ->
  (array ≠ [] ->
   exists x, (getRandomElement env array w).1 = Ok (Some x) /\ x ∈ array) /\
  (array = [] -> (getRandomElement env array w).1 = Ok None) /\
  (forall x, x ∈ array -> Z.of_nat (length array) <= 2 ^ 52 ->
     exists u, unit_draw u /\
               js_index array (floor_mul u (Z.of_nat (length array))) = Some x) /\
  (exists m, (getRandomMessage env w).1 = Ok (Some m) /\ m ∈ messages).
Proof.
  intros Hu.
  assert (Hpick : forall (U : Type) (l : list U), l ≠ [] ->
            exists x, js_index l (floor_mul (random env (draws w)) (Z.of_nat (length l)))
                      = Some x /\ x ∈ l).
  { intros U l Hne.
    assert (Hlen : 1 <= Z.of_nat (length l)) by (destruct l; [done | cbn; lia]).
    pose proof (floor_mul_range _ _ Hu Hlen) as Hj. unfold js_index.
    destruct (Z.ltb_spec (floor_mul (random env (draws w)) (Z.of_nat (length l))) 0); [lia|].
    destruct (lookup_lt_is_Some_2 l (Z.to_nat (floor_mul (random env (draws w))
                (Z.of_nat (length l)))) ltac:(lia)) as [x Hx].
    exists x. split; [done|]. by eapply list_elem_of_lookup_2. }
  split; [|split; [|split]].
  - intros Hne. destruct (Hpick T array Hne) as (x & Hx & Hin).
    exists x. split; [|done]. cbn. by rewrite Hx.
  - intros ->. cbn. unfold js_index. by destruct (_ <? _).
  - intros x [i Hi]%list_elem_of_lookup_1 Hlen.
    pose proof (lookup_lt_Some _ _ _ Hi) as Hlt.
    destruct (floor_mul_onto (Z.of_nat (length array)) (Z.of_nat i) ltac:(lia) Hlen)
      as [Hunit Hj].
    eexists. split; [exact Hunit|]. rewrite Hj. unfold js_index.
    destruct (Z.ltb_spec (Z.of_nat i) 0); [lia|]. by rewrite Nat2Z.id.
  - destruct (Hpick string messages ltac:(done)) as (m & Hm & Hin).
    exists m. split; [|done]. unfold getRandomMessage.
    change ((getRandomElement env messages w).1) with
      (@Ok (option string) (js_index messages (floor_mul (random env (draws w))
                                      (Z.of_nat (length messages))))).
    by rewrite Hm.
Qed.

Lemma getRandomElement_picks_witness :
  exists x, (getRandomElement sample_env CONFIG.INTERVAL_OPTIONS (@empty_world Wallet)).1
            = Ok (Some x) /\ x ∈ CONFIG.INTERVAL_OPTIONS.
Proof.
  assert (Hu : unit_draw (random sample_env (draws (@empty_world Wallet)))).
  { apply unit_drawb_spec. vm_compute. reflexivity. }
  apply (proj1 (getRandomElement_picks sample_env Wallet Z CONFIG.INTERVAL_OPTIONS
                  empty_world Hu)).
  discriminate.
Defined.

(** ** The calls of one deploy attempt *)

(** The calls between two logs, latest first. *)
Ltac trace_of l base :=
  lazymatch l with
  | base => constr:(@nil Event)
  | ?e :: ?l' => let t := trace_of l' base in constr:(e :: t)
  end.

Ltac give_trace :=
  cbn [heap draws clock log];
  lazymatch goal with
  | |- exists evs, ?l = evs ++ ?base /\ _ =>
      let t := trace_of l base in exists t; split; [reflexivity|]
  end.

Ltac leaf :=
  subst; give_trace; cbn; split; [by eexists|]; split; [done|]; split; [lia|done].

Lemma deployAttempt_run env wallet art dn wi w :
  exists evs,
    log (deployAttempt env wallet art dn wi w).2 = evs ++ log w /\
    erase <$> rev evs `prefix_of` attempt_protocol (address wallet) /\
    heap (deployAttempt env wallet art dn wi w).2 = heap w /\
    (draws w <= draws (deployAttempt env wallet art dn wi w).2 <= draws w + 5)%nat /\
    match (deployAttempt env wallet art dn wi w).1 with
    | Ok o => (length evs = 5 \/ length evs = 9)%nat /\
              clock (deployAttempt env wallet art dn wi w).2 = S (clock w)
    | Throw _ => clock (deployAttempt env wallet art dn wi w).2 = clock w
    end.
Proof.
  destruct (deployAttempt env wallet art dn wi w) as [[o|e] w'] eqn:H;
    cbn [fst snd]; unfold deployAttempt in H.
  - apply bind_Ok in H as (balance & w1 & Hbal & H).
    destruct (provider wallet); [|discriminate].
    prim Hbal. injection Hbal as Hbal <-.
    destruct (balance =? 0); [discriminate|].
    step H gas. step H x3. step H x4. step H x5. step H addr. step H x7. step H u.
    apply bind_Ok in H as (tx & w9 & Htx & H).
    step H ts. prim H. injection H as <- <-.
    destruct (gt_0_3 u).
    + step Htx delay. step Htx x9. step Htx msg. step Htx gas2. step Htx hash.
      step Htx x10. step Htx x11. prim Htx. injection Htx as <- <-.
      give_trace. cbn. split; [by eexists|]. split; [done|]. split; [lia|]. auto.
    + prim Htx. injection Htx as <- <-.
      give_trace. cbn. split; [by eexists|]. split; [done|]. split; [lia|]. auto.
  - apply bind_Throw in H as [H | (balance & w1 & Hbal & H)].
    { destruct (provider wallet).
      - prim H. injection H as H <-. give_trace. cbn. split; [by eexists|].
        split; [done|]. split; [lia|done].
      - prim H. injection H as <- <-. exists []. cbn. split; [done|].
        split; [by eexists|]. split; [done|]. split; [lia|done]. }
    destruct (provider wallet); [|discriminate].
    prim Hbal. injection Hbal as Hbal <-.
    destruct (balance =? 0).
    { prim H. injection H as <- <-. give_trace. cbn. split; [by eexists|].
      split; [done|]. split; [lia|done]. }
    tstep H gas. tstep H x3; [leaf|].
    tstep H x4; [leaf|]. tstep H x5; [leaf|].
    tstep H addr; [leaf|]. tstep H x7; [leaf|].
    tstep H u.
    apply bind_Throw in H as [H | (tx & w9 & Htx & H)].
    + destruct (gt_0_3 u); [|discriminate].
      tstep H delay. tstep H x9. tstep H msg. tstep H gas2.
      tstep H hash; [leaf|]. tstep H x10; [leaf|].
      tstep H x11; [leaf|]. discriminate.
    + tstep H ts. discriminate.
Qed.

Lemma deployContract_run env wallet art dn wi w :
  exists o w' evs,
    deployContract env wallet art dn wi w = (Ok o, w') /\
    log w' = evs ++ log w /\
    erase <$> rev evs `prefix_of` attempt_protocol (address wallet) /\
    (success o = true -> (length evs = 5 \/ length evs = 9)%nat) /\
    heap w' = heap w /\
    clock w' = S (clock w) /\
    (draws w <= draws w' <= draws w + 5)%nat /\
    deployer o = address wallet /\ walletIndex o = wi /\ deployNumber o = dn.
Proof.
  destruct (deployAttempt_run env wallet art dn wi w)
    as (evs & Hlog & Hprefix & Hheap & Hdraws & Hres).
  unfold deployContract, try_catch.
  destruct (deployAttempt env wallet art dn wi w) as [[o|e] w1] eqn:Hrun;
    cbn [fst snd] in *.
  - destruct Hres as [Hlen Hclock].
    apply deployAttempt_Ok in Hrun as (_ & Hd & _ & _ & Hw & Hn & _).
    exists o, w1, evs. split_and!; try done; lia.
  - eexists _, _, evs. split; [reflexivity|]. cbn. rewrite Hres.
    split_and!; try done; lia.
Qed.


Example deploy_sample_calls :
  rev (log (deployContract sample_env sample_wallet sample_artifact 1 1 empty_world).2) =
  [EGetBalance "0xaa11"; EDeploy 2750000; EWaitForDeployment; EGetAddress; EMessage;
   ECountdown 4 "Updating message in"; ESetMessage (Some "Started Tempo") 100000;
   ETxWait; EMessage].
Proof. vm_compute. reflexivity. Qed.

Lemma bind_Ok_run {A T U} (c : M A T) (k : T -> M A U) w x w1 :
  c w = (Ok x, w1) -> bind c k w = k x w1.
Proof. unfold bind. by intros ->. Qed.

(** ** The plan of one wallet *)

Lemma attempt_calls_not_next_wait addr (evs : list Event) :
  erase <$> rev evs `prefix_of` attempt_protocol addr ->
  List.filter is_next_wait evs = [].
Proof.
  intros [k Hk].
  assert (Hall : Forall (fun ev => is_next_wait ev = false) (rev evs)).
  { apply Forall_forall. intros ev Hev.
    assert (Hin : erase ev ∈ attempt_protocol addr).
    { rewrite Hk. apply elem_of_app. left. by apply list_elem_of_fmap_2. }
    assert (Hsame : is_next_wait ev = is_next_wait (erase ev)) by by destruct ev.
    rewrite Hsame. unfold attempt_protocol in Hin.
    repeat (apply elem_of_cons in Hin as [->|Hin]; [done|]). by apply elem_of_nil in Hin. }
  apply Forall_rev in Hall. rewrite rev_involutive in Hall. clear Hk.
  induction Hall as [|ev l Hev _ IH]; [done|]. cbn [List.filter]. by rewrite Hev.
Qed.

Lemma deploy_loop_run env wallet art wi dc ih :
  (forall k, unit_draw (random env k)) ->
  forall todo i results w,
  exists rs evs w',
    deploy_loop env todo i wallet art wi dc ih results w = (Ok (results ++ rs), w') /\
    length rs = todo /\
    Forall (fun o => deployer o = address wallet /\ walletIndex o = wi + 1) rs /\
    deployNumber <$> rs = (fun k => wi * 100 + k + 1) <$> seqZ i (Z.of_nat todo) /\
    heap w' = heap w /\
    log w' = evs ++ log w /\
    length (List.filter is_next_wait evs) =
      Z.to_nat (Z.min (i + Z.of_nat todo) (dc - 1) - i) /\
    Forall (fun ev => exists seconds label,
                        ev = ECountdown seconds label /\
                        ih * 3600 - 600 <= seconds <= ih * 3600 + 600)
           (List.filter is_next_wait evs).
Proof.
  intros Hunit. induction todo as [|todo IH]; intros i results w.
  - exists [], [], w. cbn. rewrite app_nil_r. split_and!; try done. lia.
  - cbn [deploy_loop].
    destruct (deployContract_run env wallet art (wi * 100 + i + 1) (wi + 1) w)
      as (o & w1 & evs1 & Hrun & Hlog1 & Hprefix & _ & Hheap1 & _ & _ & Hd & Hw & Hn).
    rewrite (bind_Ok_run _ _ _ _ _ Hrun).
    pose proof (attempt_calls_not_next_wait _ _ Hprefix) as Hnone.
    destruct (Z.ltb_spec i (dc - 1)) as [Hlt|Hge].
    + unfold bind at 1. unfold bind at 1. unfold getRandomInt, bind at 1.
      unfold Math_random, ret, countdown, call. cbn [heap draws clock log].
      match goal with |- context [deploy_loop env todo (i + 1) _ _ _ _ _ _ ?w2] =>
        destruct (IH (i + 1) (results ++ [o]) w2)
          as (rs & evs & w' & Hrest & Hlen & Hall & Hnums & Hheap & Hlog & Hcount & Hwaits)
      end.
      cbn [heap log] in Hheap, Hlog.
      set (wait := ECountdown _ _) in *.
      exists (o :: rs), (evs ++ wait :: evs1), w'.
      rewrite Hrest, <- app_assoc. split; [done|]. split; [cbn; lia|].
      split; [by constructor|]. split.
      { rewrite Nat2Z.inj_succ, (seqZ_cons i) by lia. cbn. rewrite Hn, Hnums.
        do 3 f_equal; lia. }
      split; [congruence|]. split; [by rewrite Hlog, Hlog1, <- app_assoc|].
      rewrite List.filter_app. cbn [List.filter].
      assert (Hw' : is_next_wait wait = true) by reflexivity.
      rewrite Hw', Hnone, length_app, Hcount. cbn [length]. split; [lia|].
      apply Forall_app. split; [done|]. constructor; [|done].
      eexists _, _. split; [reflexivity|].
      pose proof (randomInt_range (-600) 600 _ (Hunit (draws w1)) ltac:(lia)).
      unfold totalWait. lia.
    + unfold bind at 1. unfold ret at 1.
      destruct (IH (i + 1) (results ++ [o]) w1)
        as (rs & evs & w' & Hrest & Hlen & Hall & Hnums & Hheap & Hlog & Hcount & Hwaits).
      exists (o :: rs), (evs ++ evs1), w'.
      rewrite Hrest, <- app_assoc. split; [done|]. split; [cbn; lia|].
      split; [by constructor|]. split.
      { rewrite Nat2Z.inj_succ, (seqZ_cons i) by lia. cbn. rewrite Hn, Hnums.
        do 3 f_equal; lia. }
      split; [congruence|]. split; [by rewrite Hlog, Hlog1, <- app_assoc|].
      rewrite List.filter_app, Hnone, app_nil_r, Hcount. split; [lia|done].
Qed.

Lemma processWallet_run env wallet art wi n w :
  (forall k, unit_draw (random env k)) ->
  exists rs evs w' deployCount intervalHours,
    processWallet env (Some wallet) art wi n w = (Ok rs, w') /\
    2 <= deployCount <= 4 /\
    intervalHours ∈ CONFIG.INTERVAL_OPTIONS /\
    Z.of_nat (length rs) = deployCount /\
    Forall (fun o => deployer o = address wallet /\ walletIndex o = wi + 1) rs /\
    deployNumber <$> rs = (fun k => wi * 100 + k + 1) <$> seqZ 0 deployCount /\
    heap w' = heap w /\
    log w' = evs ++ log w /\
    Z.of_nat (length (List.filter is_next_wait evs)) = deployCount - 1 /\
    Forall (fun ev => exists seconds label,
                        ev = ECountdown seconds label /\
                        intervalHours * 3600 - 600 <= seconds <= intervalHours * 3600 + 600)
           (List.filter is_next_wait evs).
Proof.
  intros Hunit. unfold processWallet.
  unfold bind at 1. unfold getRandomInt at 1. unfold bind at 1.
  unfold Math_random at 1. unfold ret at 1.
  unfold bind at 1. unfold getRandomElement at 1. unfold bind at 1.
  unfold Math_random at 1. unfold ret at 1. cbn [heap draws clock log].
  set (dc := randomInt CONFIG.MIN_DEPLOY_COUNT CONFIG.MAX_DEPLOY_COUNT (random env (draws w))).
  set (ih := default 0 (js_index CONFIG.INTERVAL_OPTIONS _)).
  assert (Hdc : 2 <= dc <= 4) by (apply randomInt_range; [apply Hunit | done]).
  assert (Hih : ih ∈ CONFIG.INTERVAL_OPTIONS) by apply interval_pick, Hunit.
  match goal with |- context [deploy_loop env _ 0 _ _ _ _ _ _ ?w2] =>
    destruct (deploy_loop_run env wallet art wi dc ih Hunit (Z.to_nat dc) 0 [] w2)
      as (rs & evs & w' & Hrun & Hlen & Hall & Hnums & Hheap & Hlog & Hcount & Hwaits)
  end.
  cbn [heap log app] in Hrun, Hheap, Hlog. rewrite Z2Nat.id in Hnums, Hcount by lia.
  exists rs, evs, w', dc, ih. split_and!; try done; lia.
Qed.



(** ** The order of the outcomes *)

Lemma seqZ_sorted m (n : nat) : StronglySorted Z.lt (seqZ m (Z.of_nat n)).
Proof.
  revert m. induction n as [|n IH]; intros m; [constructor|].
  rewrite Nat2Z.inj_succ, seqZ_cons by lia. constructor.
  - replace (Z.pred (Z.succ (Z.of_nat n))) with (Z.of_nat n) by lia. apply IH.
  - apply Forall_forall. intros k Hk%elem_of_seqZ. lia.
Qed.

Lemma effects_wallets_loop_sorted env P (HP : admits env P)
    (Hunit : forall k, unit_draw (random env k)) sh art :
  forall todo i allResults,
    0 <= i ->
    StronglySorted Z.lt (deployNumber <$> allResults) ->
    Forall (fun o => 1 <= deployNumber o <= i * 100) allResults ->
    effects (wallets_loop env todo i sh art allResults) P
      (fun rs => StronglySorted Z.lt (deployNumber <$> rs)).
Proof.
  induction todo as [|todo IH]; intros i allResults Hi Hsorted Hbound.
  - by apply effects_ret.
  - cbn [wallets_loop].
    eapply effects_bind with (Q1 := fun _ => True); [by apply effects_silent|].
    intros wallet _.
    eapply effects_bind with (Q1 := fun _ => True); [by apply effects_silent|].
    intros n _.
    eapply effects_bind; [by apply effects_processWallet|].
    intros rs (k & Hrs). cbv beta zeta in Hrs |- *.
    pose proof (randomInt_range CONFIG.MIN_DEPLOY_COUNT CONFIG.MAX_DEPLOY_COUNT _
                  (Hunit k) ltac:(done)) as Hdc.
    set (dc := randomInt _ _ _) in Hdc, Hrs.
    unfold CONFIG.MIN_DEPLOY_COUNT, CONFIG.MAX_DEPLOY_COUNT in Hdc.
    assert (Hsorted' : StronglySorted Z.lt (deployNumber <$> rs)).
    { rewrite Hrs. apply (StronglySorted_fmap _ Z.lt); [intros; lia | apply seqZ_sorted]. }
    assert (Hbound' : Forall (fun o => i * 100 + 1 <= deployNumber o <= i * 100 + 4) rs).
    { apply Forall_fmap with (f := deployNumber)
        (P := fun d => i * 100 + 1 <= d <= i * 100 + 4).
      rewrite Hrs. apply Forall_fmap, Forall_forall.
      intros a Ha%elem_of_seqZ. cbn. lia. }
    eapply effects_bind with (Q1 := fun _ => True).
    { destruct (_ <? _); [|by apply effects_ret].
      eapply effects_bind; [apply effects_getRandomInt_draw|]. intros v [k' ->].
      apply effects_countdown, (admits_wallet _ _ HP). }
    intros _ _. apply IH; [lia | |].
    + rewrite fmap_app. apply StronglySorted_app. split; [|done].
      intros d d' (o & -> & Ho)%list_elem_of_fmap (o' & -> & Ho')%list_elem_of_fmap.
      rewrite Forall_forall in Hbound, Hbound'.
      specialize (Hbound o Ho). specialize (Hbound' o' Ho'). lia.
    + apply Forall_app. split.
      * eapply Forall_impl; [done|]. cbn. lia.
      * eapply Forall_impl; [done|]. cbn. lia.
Qed.

(** X10: in every summary that a run writes the outcomes stand in the
    order in which the attempts were made, wallet after wallet and attempt
    after attempt: their deploy numbers increase strictly along the list. *)
Theorem summary_in_attempt_order (env : Env) (w : World Wallet) (path : string)
    (s : Summary) :
  (forall k, unit_draw (random env k)) ->
  EWriteFile path s ∈ log (main env w).2 ->
  EWriteFile path s ∉ log w ->
  StronglySorted Z.lt (deployNumber <$> deployments s).
Proof.
  intros Hunit Hin Hold.
  apply (main_logged env (run_event (fun rs => StronglySorted Z.lt (deployNumber <$> rs)))
           w _) in Hin as [Hsorted _]; [done| |done].
  eapply effects_main_body;
    [apply admits_run_event | | intros s0 HG Hc; exact (conj HG Hc)].
  intros. apply effects_wallets_loop_sorted;
    [apply admits_run_event | done | lia | constructor | constructor].
Qed.

Lemma summary_in_attempt_order_witness :
  exists s, head (log (main sample_env empty_world).2) = Some (EWriteFile "deployments.json" s) /\
            StronglySorted Z.lt (deployNumber <$> deployments s).
Proof.
  set (l := log (main sample_env empty_world).2).
  assert (Hl : exists s rest, l = EWriteFile "deployments.json" s :: rest).
  { vm_compute. do 2 eexists. reflexivity. }
  destruct Hl as (s & rest & Hl). exists s. split; [by rewrite Hl|].
  assert (Hunit : forall k, unit_draw (random sample_env k)).
  { intros k. apply unit_drawb_spec. cbn. unfold sample_draw.
    destruct (Nat.even k); reflexivity. }
  apply (summary_in_attempt_order sample_env empty_world "deployments.json" s Hunit).
  - fold l. rewrite Hl. apply list_elem_of_here.
  - apply not_elem_of_nil.
Defined.

(** ** The content of the summary *)

Lemma size_list_to_set_le (l : list string) :
  (size (list_to_set l : gset string) <= length l)%nat.
Proof.
  induction l as [|x l IH]; [done|].
  rewrite list_to_set_cons, size_union_alt, size_singleton. cbn [length].
  assert (size (list_to_set l ∖ {[x]} : gset string) <= size (list_to_set l : gset string))%nat
    by (apply subseteq_size; intros y Hy; apply elem_of_difference in Hy as [Hy _]; exact Hy).
  lia.
Qed.

Lemma effects_summarize_content env P allResults :
  effects (summarize env allResults) P
    (fun s => deployments s = allResults /\ summary_counts s /\ summary_content s).
Proof.
  unfold summarize. destruct allResults as [|r rest].
  { eapply effects_bind with (Q1 := fun _ => False); [apply effects_throw | by intros]. }
  eapply effects_bind with (Q1 := fun v => v = timestamp r); [by apply effects_ret|].
  intros start ->.
  eapply effects_bind with (Q1 := fun _ => True); [by apply effects_silent|].
  intros finish _. apply effects_ret. split; [done|]. split.
  - unfold summary_counts. cbn [successful failed totalDeployments deployments].
    pose proof (filter_partition_length success (r :: rest)). lia.
  - unfold summary_content.
    cbn [deployments startTime uniqueWallets totalDeployments network chainId botVersion
         features].
    split; [by eexists _, _|]. split; [done|]. split; [|done].
    pose proof (size_list_to_set_le (deployer <$> r :: rest)) as Hle.
    rewrite length_fmap in Hle. split; [|lia].
    assert (size (list_to_set (deployer <$> r :: rest) : gset string) ≠ 0)%nat; [|lia].
    apply size_non_empty_iff. rewrite fmap_cons, list_to_set_cons. set_solver.
Qed.

Lemma admits_report_event env : admits env report_event.
Proof. by split; intros; try match goal with ev : Event |- _ => destruct ev end. Qed.

Lemma effects_main_body_report env :
  effects (main_body env) report_event (fun _ => True).
Proof.
  pose proof (admits_report_event env) as HP. unfold main_body. cbv zeta.
  eapply effects_bind; [by apply effects_compileContract|]. intros art _.
  eapply effects_bind; [by apply effects_getPrivateKeys|]. intros keys _.
  destruct (_ =? _)%nat; [apply effects_throw|].
  eapply effects_bind with (Q1 := fun _ => True); [by apply effects_silent|].
  intros wallets _.
  eapply effects_bind; [apply effects_alloc|]. intros arr _.
  eapply effects_bind; [apply effects_shuffleArray|]. intros sh _.
  eapply effects_bind; [apply effects_array_length|]. intros n _.
  eapply effects_bind; [by apply effects_wallets_loop_any|]. intros allResults _.
  eapply effects_bind; [apply effects_summarize_content|]. intros s (Hs & _ & Hcontent).
  eapply effects_bind with (Q1 := fun _ => True); [|intros; by apply effects_ret].
  by apply effects_call.
Qed.

(** X11: a run never writes an empty summary, and writes it to
    [deployments.json] only: every summary written holds at least one
    outcome, its start time is the timestamp of the first outcome, its
    number of unique wallets is the number of distinct deployer addresses,
    at least one and at most the number of outcomes, and its heading
    fields are the fixed ones. *)
Theorem summary_never_empty (env : Env) (w : World Wallet) (path : string) (s : Summary) :
  EWriteFile path s ∈ log (main env w).2 ->
  EWriteFile path s ∉ log w ->
  path = "deployments.json" /\
  (exists first rest, deployments s = first :: rest /\ startTime s = timestamp first) /\
  uniqueWallets s = Z.of_nat (size (list_to_set (deployer <$> deployments s) : gset string)) /\
  1 <= uniqueWallets s <= totalDeployments s /\
  network s = "Tempo Testnet" /\ chainId s = 42429 /\ botVersion s = "3.0.0" /\
  features s = mkFeatures "2-4" ["6h"; "12h"; "24h"] true true true.
Proof.
  intros Hin Hold.
  by apply (main_logged env report_event w _ (effects_main_body_report env)) in Hin.
Qed.

Lemma summary_never_empty_witness :
  exists s, head (log (main sample_env empty_world).2) = Some (EWriteFile "deployments.json" s) /\
            1 <= uniqueWallets s <= totalDeployments s.
Proof.
  set (l := log (main sample_env empty_world).2).
  assert (Hl : exists s rest, l = EWriteFile "deployments.json" s :: rest).
  { vm_compute. do 2 eexists. reflexivity. }
  destruct Hl as (s & rest & Hl). exists s. split; [by rewrite Hl|].
  refine (proj1 (proj2 (proj2 (proj2
            (summary_never_empty sample_env empty_world "deployments.json" s _ _))))).
  - fold l. rewrite Hl. apply list_elem_of_here.
  - apply not_elem_of_nil.
Defined.

Example main_sample_summary :
  match log (main sample_env empty_world).2 with
  | EWriteFile _ s :: _ =>
      (totalDeployments s, successful s, failed s, uniqueWallets s, startTime s, endTime s)
  | _ => (0, 0, 0, 0, "", "")
  end = (8, 8, 0, 2, "2026-01-01T00:00:00.000Z", "2026-01-01T00:00:08.000Z").
Proof. vm_compute. reflexivity. Qed.

(** ** The time a run sleeps *)

Lemma time_slept_cons (ev : Event) (evs : list Event) :
  time_slept (ev :: evs) =
  match ev with
  | ECountdown seconds _ => 1000 * Z.max 0 seconds
  | _ => 0
  end + time_slept evs.
Proof.
  destruct ev; try reflexivity.
  unfold time_slept. cbn [foldr]. by rewrite countdown_slept.
Qed.

Lemma time_slept_app (evs evs' : list Event) :
  time_slept (evs ++ evs') = time_slept evs + time_slept evs'.
Proof.
  induction evs as [|ev evs IH]; [done|].
  rewrite <- app_comm_cons, !time_slept_cons, IH. lia.
Qed.

Lemma time_slept_nonneg (evs : list Event) : 0 <= time_slept evs.
Proof.
  induction evs as [|ev evs IH]; [done|].
  rewrite time_slept_cons. destruct ev; lia.
Qed.

(** Waits picked out of a list of calls bound the time slept from below. *)
Lemma time_slept_filter (f : Event -> bool) (lo : Z) (evs : list Event) :
  0 <= lo ->
  Forall (fun ev => exists seconds label, ev = ECountdown seconds label /\ lo <= seconds)
         (List.filter f evs) ->
  1000 * lo * Z.of_nat (length (List.filter f evs)) <= time_slept evs.
Proof.
  intros Hlo. induction evs as [|ev evs IH]; [intros _; cbn; lia|].
  cbn [List.filter]. rewrite time_slept_cons. intros Hall.
  destruct (f ev).
  - apply Forall_cons_1 in Hall as [(seconds & label & -> & Hs) Hall].
    specialize (IH Hall). cbn [length]. lia.
  - specialize (IH Hall). destruct ev; lia.
Qed.

(** ** A run that gets through *)

Lemma shuffleArray_result {A} env (array : loc) (w : World A) (xs : list (option A)) :
  heap w !! array = Some xs ->
  (forall k, unit_draw (random env k)) ->
  exists ys,
    shuffleArray env array w =
      (Ok (fresh (dom (heap w))),
       mkWorld (<[fresh (dom (heap w)) := ys]> (heap w))
               (draws w + (length xs - 1)) (clock w) (log w)) /\
    ys ≡ₚ xs.
Proof.
  intros Hxs Hunit. rewrite shuffleArray_run. cbv zeta.
  unfold array_at. rewrite Hxs. change (default [] (Some xs)) with xs.
  set (sh := fresh (dom (heap w))).
  set (w1 := mkWorld (<[sh := xs]> (heap w)) (draws w) (clock w) (log w)).
  destruct xs as [|x xs'].
  - exists []. split; [|done]. cbn. unfold w1. by rewrite Nat.add_0_r.
  - destruct (shuffle_loop_permutation env (Z.to_nat (Z.of_nat (length (x :: xs')) - 1)) sh
                Hunit w1 (x :: xs')) as (ys & Hrun & Hperm).
    { cbn [w1 heap]. by rewrite lookup_insert_eq. }
    { cbn [length]. lia. }
    rewrite Hrun. exists ys. split; [|done]. cbn [heap draws clock log w1].
    rewrite insert_insert_eq. do 3 f_equal. cbn [length]. lia.
Qed.

Lemma same_deployer_set (rs : list Outcome) (a : string) :
  rs ≠ [] -> Forall (fun o => deployer o = a) rs ->
  list_to_set (deployer <$> rs) = ({[a]} : gset string).
Proof.
  intros Hne Hall. apply set_eq. intros x.
  rewrite elem_of_list_to_set, list_elem_of_fmap, elem_of_singleton.
  rewrite Forall_forall in Hall. split.
  - intros (o & -> & Ho). by apply Hall.
  - intros ->. destruct rs as [|o rs]; [done|]. exists o.
    split; [symmetry; apply Hall|]; apply list_elem_of_here.
Qed.

Lemma wallets_loop_run env sh art (ys : list (option Wallet)) :
  (forall k, unit_draw (random env k)) ->
  Forall is_Some ys ->
  forall todo i acc w,
    heap w !! sh = Some ys ->
    0 <= i -> (Z.to_nat i + todo = length ys)%nat ->
    exists rs w',
      wallets_loop env todo i sh art acc w = (Ok (acc ++ rs), w') /\
      heap w' = heap w /\
      (2 * todo <= length rs <= 4 * todo)%nat /\
      list_to_set (deployer <$> rs) =
        (list_to_set (omap (fmap address) (drop (Z.to_nat i) ys)) : gset string) /\
      exists evs, log w' = evs ++ log w /\
                  21000000 * Z.of_nat todo <= time_slept evs.
Proof.
  intros Hunit Hsome. induction todo as [|todo IH]; intros i acc w Hys Hi Hlen.
  - exists [], w. rewrite app_nil_r, drop_ge by lia. split_and!; try done.
    by exists [].
  - cbn [wallets_loop].
    destruct (lookup_lt_is_Some_2 ys (Z.to_nat i) ltac:(lia)) as [slot Hslot].
    assert (Hwallet : is_Some slot).
    { rewrite Forall_forall in Hsome. eapply Hsome, list_elem_of_lookup_2, Hslot. }
    destruct Hwallet as [wallet ->].
    unfold bind at 1. unfold read at 1. unfold bind at 1. unfold array_length at 1.
    unfold array_at, js_get. rewrite Hys. change (default [] (Some ys)) with ys.
    destruct (Z.ltb_spec i 0); [lia|]. rewrite Hslot. cbn [mjoin option_join].
    destruct (processWallet_run env wallet art i (Z.of_nat (length ys)) w Hunit)
      as (rs1 & evs1 & w1 & dc & ih & Hrun & Hdc & Hih & Hlen1 & Hall & _ & Hheap1 & Hlog1
          & Hcount1 & Hwaits1).
    assert (Htime1 : 21000000 <= time_slept evs1).
    { pose proof (time_slept_filter is_next_wait 21000 evs1 ltac:(lia)) as Hlow.
      assert (Hlong : 6 <= ih).
      { unfold CONFIG.INTERVAL_OPTIONS in Hih.
        repeat (apply elem_of_cons in Hih as [->|Hih]; [lia|]). by apply elem_of_nil in Hih. }
      enough (1000 * 21000 * Z.of_nat (length (List.filter is_next_wait evs1))
              <= time_slept evs1) by lia.
      apply Hlow. eapply Forall_impl; [exact Hwaits1|].
      intros ev (seconds & label & -> & Hs). exists seconds, label. split; [done|lia]. }
    rewrite (bind_Ok_run _ _ _ _ _ Hrun).
    assert (Hstep : exists w2 evs2, heap w2 = heap w /\ log w2 = evs2 ++ log w1 /\
              bind (if i <? Z.of_nat (length ys) - 1
                    then bind (getRandomInt env CONFIG.MIN_DELAY_BETWEEN_WALLETS
                                 CONFIG.MAX_DELAY_BETWEEN_WALLETS)
                              (fun delaySeconds =>
                                 countdown delaySeconds "Starting next wallet in")
                    else ret tt)
                   (fun _ => wallets_loop env todo (i + 1) sh art (acc ++ rs1)) w1
              = wallets_loop env todo (i + 1) sh art (acc ++ rs1) w2).
    { destruct (_ <? _).
      - eexists _, [_]. split; [|split; [|reflexivity]]; cbn; done.
      - exists w1, []. split; [done|]. split; [done|]. reflexivity. }
    destruct Hstep as (w2 & evs2 & Hheap2 & Hlog2 & ->).
    destruct (IH (i + 1) (acc ++ rs1) w2)
      as (rs & w' & Hrest & Hheap & Hcount & Hset & evs & Hlog & Htime);
      [congruence | lia | lia |].
    exists (rs1 ++ rs), w'. rewrite Hrest, <- app_assoc. split; [done|].
    split; [congruence|]. split; [rewrite length_app; lia|]. split.
    + rewrite fmap_app, list_to_set_app_L, Hset.
      rewrite (same_deployer_set rs1 (address wallet)).
      * replace (Z.to_nat (i + 1)) with (S (Z.to_nat i)) by lia.
        rewrite (drop_S _ _ _ Hslot). cbn [omap list_omap fmap option_fmap option_map].
        by rewrite list_to_set_cons.
      * intros ->. cbn in Hlen1. lia.
      * eapply Forall_impl; [exact Hall|]. by intros o [? _].
    + exists (evs ++ evs2 ++ evs1). split.
      * by rewrite Hlog, Hlog2, Hlog1, <- !app_assoc.
      * rewrite !time_slept_app. pose proof (time_slept_nonneg evs2). lia.
Qed.

Lemma map_result_length {T U} (f : T -> Result U) (l : list T) (l' : list U) :
  map_result f l = Ok l' -> length l' = length l.
Proof.
  revert l'. induction l as [|x l IH]; intros l'; cbn.
  - by intros [= <-].
  - destruct (f x); [|done]. destruct (map_result f l); [|done].
    intros [= <-]. cbn. by rewrite (IH _ eq_refl).
Qed.

Lemma admits_not_write env : admits env (fun ev => is_write ev = false).
Proof. split; try done. by intros []. Qed.

Lemma summarize_run env (rs : list Outcome) (w : World Wallet) :
  rs ≠ [] ->
  exists s,
    summarize env rs w = (Ok s, mkWorld (heap w) (draws w) (S (clock w)) (log w)) /\
    deployments s = rs /\
    uniqueWallets s = Z.of_nat (size (list_to_set (deployer <$> rs) : gset string)).
Proof.
  intros Hne. destruct rs as [|r rest]; [done|].
  eexists. split; [reflexivity|]. done.
Qed.

(** A run whose start-up succeeds, up to the reply to the write of the
    summary. *)
Lemma main_run env (w w1 w2 : World Wallet) (art : Artifact)
    (keys : list string) (wallets : list Wallet) :
  (forall k, unit_draw (random env k)) ->
  compileContract env getContractSource w = (Ok art, w1) ->
  getPrivateKeys env w1 = (Ok keys, w2) ->
  keys ≠ [] ->
  map_result (newWallet env) keys = Ok wallets ->
  exists s evs,
    log (main env w).2 = EWriteFile "deployments.json" s :: evs ++ log w /\
    (writeFile env (log (main env w).2) = Ok tt -> (main env w).1 = 0) /\
    Forall (fun ev => is_write ev = false) evs /\
    (2 * length keys <= length (deployments s) <= 4 * length keys)%nat /\
    uniqueWallets s = Z.of_nat (size (list_to_set (address <$> wallets) : gset string)) /\
    (NoDup (address <$> wallets) -> uniqueWallets s = Z.of_nat (length keys)) /\
    21000000 * Z.of_nat (length keys) <= time_slept evs.
Proof.
  intros Hunit Hc Hk Hne Hw.
  pose proof (map_result_length _ _ _ Hw) as Hlen.
  pose proof (compileContract_log env getContractSource w) as Hlog1.
  pose proof (getPrivateKeys_log env w1) as Hlog2.
  rewrite Hc in Hlog1. rewrite Hk in Hlog2. cbn [snd] in Hlog1, Hlog2.
  set (arr := fresh (dom (heap w2))).
  set (w3 := mkWorld (<[arr := Some <$> wallets]> (heap w2)) (draws w2) (clock w2) (log w2)).
  destruct (shuffleArray_result env arr w3 (Some <$> wallets)) as (ys & Hshuffle & Hperm);
    [by apply lookup_insert_eq | done |].
  set (sh := fresh (dom (heap w3))) in Hshuffle.
  set (w4 := mkWorld _ _ _ _) in Hshuffle.
  assert (Hys : Forall is_Some ys).
  { rewrite Hperm. apply Forall_fmap, Forall_forall. by eexists. }
  assert (Hn : length ys = length keys).
  { by rewrite (Permutation_length Hperm), length_fmap. }
  destruct (wallets_loop_run env sh art ys Hunit Hys (length ys) 0 [] w4)
    as (rs & w5 & Hloop & _ & Hcount & Hset & evs' & Hlog5' & Htime);
    [by apply lookup_insert_eq | lia | lia |].
  cbn [app] in Hloop. rewrite drop_0 in Hset.
  assert (Hrs : rs ≠ []).
  { intros ->. cbn in Hcount. destruct keys; [done | cbn in Hn; lia]. }
  destruct (summarize_run env rs w5 Hrs) as (s & Hsum & Hdep & Huniq).
  destruct (effects_wallets_loop_any env _ (admits_not_write env) sh art
              (length ys) 0 [] w4) as [(evs & Hlog5 & Hevs) _].
  rewrite Hloop in Hlog5. cbn [snd] in Hlog5.
  assert (evs' = evs) as -> by (rewrite Hlog5 in Hlog5'; by apply app_inv_tail in Hlog5').
  assert (Hbody : main_body env w =
            bind (call (EWriteFile "deployments.json" s) (writeFile env)) (fun _ => ret tt)
                 (mkWorld (heap w5) (draws w5) (S (clock w5)) (log w5))).
  { unfold main_body. cbv zeta.
    rewrite (bind_Ok_run _ _ _ _ _ Hc), (bind_Ok_run _ _ _ _ _ Hk).
    destruct (Nat.eqb_spec (length keys) 0) as [Hz|_]; [by destruct keys|].
    unfold bind at 1. unfold lift at 1. rewrite Hw.
    unfold bind at 1. unfold alloc at 1. fold arr w3.
    rewrite (bind_Ok_run _ _ _ _ _ Hshuffle).
    unfold bind at 1. unfold array_length at 1. unfold array_at.
    cbn [heap w4]. rewrite lookup_insert_eq. change (default [] (Some ys)) with ys.
    fold w4. by rewrite Nat2Z.id, (bind_Ok_run _ _ _ _ _ Hloop), (bind_Ok_run _ _ _ _ _ Hsum). }
  assert (Hmain : main env w =
            (match writeFile env (EWriteFile "deployments.json" s :: log w5) with
             | Ok _ => 0
             | Throw _ => 1
             end,
             mkWorld (heap w5) (draws w5) (S (clock w5))
                     (EWriteFile "deployments.json" s :: log w5))).
  { unfold main. rewrite Hbody. unfold bind, call, ret. cbn [heap draws clock log].
    by destruct (writeFile env _) as [[]|e]. }
  assert (Hlog : log w5 = (evs ++ [EReadFile "pk.txt"; ECompile getContractSource]) ++ log w).
  { rewrite Hlog5. cbn [log w4 w3]. by rewrite Hlog2, Hlog1, <- app_assoc. }
  exists s, (evs ++ [EReadFile "pk.txt"; ECompile getContractSource]).
  rewrite Hmain. cbn [fst snd log]. rewrite <- Hlog.
  split; [done|]. split; [|split; [|split; [|split; [|split]]]].
  - by intros ->.
  - apply Forall_app. split; [done|]. by repeat constructor.
  - rewrite Hdep. lia.
  - rewrite Huniq, Hset. do 2 f_equal.
    rewrite Hperm. clear. induction wallets as [|x l IH]; [done|]. cbn. by rewrite IH.
  - intros Hnd. rewrite Huniq, Hset.
    assert (Hsame : omap (fmap address) ys ≡ₚ address <$> wallets).
    { rewrite Hperm. clear. induction wallets as [|x l IH]; [done|]. cbn. by rewrite IH. }
    rewrite (list_to_set_perm_L _ _ Hsame), size_list_to_set, length_fmap by done.
    by rewrite Hlen.
  - rewrite time_slept_app. pose proof (time_slept_nonneg
      [EReadFile "pk.txt"; ECompile getContractSource]). lia.
Qed.

(** X12: failed deploy attempts never stop a run.  Once the contract is
    compiled, at least one key is read, every key gives a wallet and the
    report file can be written, [main] ends with exit code 0 whatever the
    chain replies; its last call writes the one summary, which holds
    between two and four outcomes for every key and counts as unique
    wallets the distinct addresses of the keys: all of them when the
    addresses differ. *)
Theorem main_completes (env : Env) (w w1 w2 : World Wallet) (art : Artifact)
    (keys : list string) (wallets : list Wallet) :
  (forall k, unit_draw (random env k)) ->
  compileContract env getContractSource w = (Ok art, w1) ->
  getPrivateKeys env w1 = (Ok keys, w2) ->
  keys ≠ [] ->
  map_result (newWallet env) keys = Ok wallets ->
  (forall l, writeFile env l = Ok tt) ->
  (main env w).1 = 0 /\
  exists s evs,
    log (main env w).2 = EWriteFile "deployments.json" s :: evs ++ log w /\
    Forall (fun ev => is_write ev = false) evs /\
    (2 * length keys <= length (deployments s) <= 4 * length keys)%nat /\
    uniqueWallets s = Z.of_nat (size (list_to_set (address <$> wallets) : gset string)) /\
    (NoDup (address <$> wallets) -> uniqueWallets s = Z.of_nat (length keys)).
Proof.
  intros Hunit Hc Hk Hne Hw Hwrite.
  destruct (main_run env w w1 w2 art keys wallets Hunit Hc Hk Hne Hw)
    as (s & evs & Hlog & Hexit & Hevs & Hcount & Huniq & Hnd & _).
  split; [by apply Hexit|]. by exists s, evs.
Qed.

Lemma main_completes_witness :
  (main sample_env empty_world).1 = 0.
Proof.
  assert (Hunit : forall k, unit_draw (random sample_env k)).
  { intros k. apply unit_drawb_spec. cbn. unfold sample_draw.
    destruct (Nat.even k); reflexivity. }
  refine (proj1 (main_completes sample_env empty_world _ _ _ _ _ Hunit _ _ _ _ _)).
  - reflexivity.
  - reflexivity.
  - vm_compute. discriminate.
  - reflexivity.
  - reflexivity.
Defined.

(** X16: a run takes hours for every key.  Once the contract is compiled
    and every key of a non-empty key file gives a wallet, the countdowns
    of the run sleep at least 21000 seconds (5 h 50 min) for each key,
    whatever the chain replies: every wallet makes at least two attempts,
    and the wait between two attempts is at least six hours less ten
    minutes. *)
Theorem main_takes_hours (env : Env) (w w1 w2 : World Wallet) (art : Artifact)
    (keys : list string) (wallets : list Wallet) :
  (forall k, unit_draw (random env k)) ->
  compileContract env getContractSource w = (Ok art, w1) ->
  getPrivateKeys env w1 = (Ok keys, w2) ->
  keys ≠ [] ->
  map_result (newWallet env) keys = Ok wallets ->
  exists evs,
    log (main env w).2 = evs ++ log w /\
    21000 * 1000 * Z.of_nat (length keys) <= time_slept evs.
Proof.
  intros Hunit Hc Hk Hne Hw.
  destruct (main_run env w w1 w2 art keys wallets Hunit Hc Hk Hne Hw)
    as (s & evs & Hlog & _ & _ & _ & _ & _ & Htime).
  exists (EWriteFile "deployments.json" s :: evs). split; [done|].
  rewrite time_slept_cons. lia.
Qed.

Lemma main_takes_hours_witness :
  exists evs,
    log (main sample_env empty_world).2 = evs ++ [] /\
    42000000 <= time_slept evs.
Proof.
  assert (Hunit : forall k, unit_draw (random sample_env k)).
  { intros k. apply unit_drawb_spec. cbn. unfold sample_draw.
    destruct (Nat.even k); reflexivity. }
  refine (main_takes_hours sample_env empty_world _ _ _ ["aa11"; "bb22"] _ Hunit _ _ _ _).
  - reflexivity.
  - reflexivity.
  - discriminate.
  - reflexivity.
Defined.

(** ** How a run ends *)

(** X13: when the key file cannot be read, or when one of the keys of an
    ASCII key file is refused by [ethers.Wallet], the run ends with exit
    code 1 after the compiler and the key file were called and nothing
    else: no wallet is shuffled, no draw is taken, the chain is not called
    and no summary is written. *)
Theorem key_failure_aborts (env : Env) (w w1 : World Wallet) (art : Artifact) :
  (forall content, readFile env "pk.txt" = Ok content -> ascii_text content) ->
  compileContract env getContractSource w = (Ok art, w1) ->
  (exists e, (getPrivateKeys env w1).1 = Throw e) \/
  (exists keys e, (getPrivateKeys env w1).1 = Ok keys /\
                  map_result (newWallet env) keys = Throw e) ->
  (main env w).1 = 1 /\
  log (main env w).2 = [EReadFile "pk.txt"; ECompile getContractSource] ++ log w /\
  draws (main env w).2 = draws w /\
  heap (main env w).2 = heap w.
Proof.
  intros _ Hc Hfail.
  pose proof (compileContract_log env getContractSource w) as Hlog1.
  pose proof (getPrivateKeys_log env w1) as Hlog2.
  rewrite Hc in Hlog1. cbn [snd] in Hlog1.
  assert (Hframe1 : draws w1 = draws w /\ heap w1 = heap w).
  { revert Hc. unfold compileContract, bind, call, throw, ret.
    destruct (solc env getContractSource) as [[errs ctr]|e]; [|done].
    cbn [errors contracts]. destruct errs as [errs|].
    - destruct (Nat.ltb _ _); [done|]. destruct ctr as [[? ?]|]; [|done]. by intros [= _ <-].
    - destruct ctr as [[? ?]|]; [|done]. by intros [= _ <-]. }
  assert (Hframe2 : draws (getPrivateKeys env w1).2 = draws w1 /\
                    heap (getPrivateKeys env w1).2 = heap w1).
  { unfold getPrivateKeys, bind, call, ret. by destruct (readFile env "pk.txt"). }
  destruct (getPrivateKeys env w1) as [r w2] eqn:Hk. cbn [fst snd] in *.
  assert (Hmain : main env w = (1, w2)).
  { unfold main, main_body. cbv zeta. rewrite (bind_Ok_run _ _ _ _ _ Hc).
    unfold bind at 1. rewrite Hk.
    destruct Hfail as [[e ->] | (keys & e & -> & Hw)]; [done|].
    destruct (_ =? _)%nat; [done|].
    unfold bind at 1. unfold lift at 1. by rewrite Hw. }
  rewrite Hmain. cbn [fst snd]. rewrite Hlog2, Hlog1.
  destruct Hframe1 as [Hd1 Hh1], Hframe2 as [Hd2 Hh2].
  split_and!; [done|done|congruence|congruence].
Qed.

Lemma key_failure_aborts_witness :
  (main badkey_env empty_world).1 = 1.
Proof.
  refine (proj1 (key_failure_aborts _ empty_world _ _ _ _ _)).
  - intros content [= <-]. unfold ascii_text. vm_compute chars. repeat constructor.
  - reflexivity.
  - right. eexists _, _. split; reflexivity.
Defined.

(** ** The exit code *)

Lemma ends_at_write_bind {T} env (c : M Wallet T) (k : T -> M Wallet unit) :
  effects c (fun ev => is_write ev = false) (fun _ => True) ->
  (forall v w1, ends_at_write env (log w1) (k v w1)) ->
  forall w, ends_at_write env (log w) (bind c k w).
Proof.
  intros Hc Hk w. destruct (Hc w) as [(evs1 & Hlog1 & Hevs1) _].
  unfold bind. destruct (c w) as [[v|e] w1]; cbn [fst snd] in *.
  - specialize (Hk v w1). unfold ends_at_write, wrote_summary_last in *.
    destruct (k v w1) as [[u|e] w2]; cbn [fst snd] in *.
    + destruct Hk as (s & (evs & Hlog & Hevs) & Hreply). exists s. split; [|done].
      exists (evs ++ evs1). rewrite Hlog, Hlog1, <- app_assoc. split; [done|].
      by apply Forall_app.
    + destruct Hk as [(evs & Hlog & Hevs) | (s & (evs & Hlog & Hevs) & Hreply)].
      * left. exists (evs ++ evs1). rewrite Hlog, Hlog1, <- app_assoc. split; [done|].
        by apply Forall_app.
      * right. exists s. split; [|done].
        exists (evs ++ evs1). rewrite Hlog, Hlog1, <- app_assoc. split; [done|].
        by apply Forall_app.
  - left. by exists evs1.
Qed.

Lemma main_body_ends_at_write env w : ends_at_write env (log w) (main_body env w).
Proof.
  pose proof (admits_not_write env) as HP.
  revert w. unfold main_body. cbv zeta.
  apply ends_at_write_bind; [by apply effects_compileContract|]. intros art w1. revert w1.
  apply ends_at_write_bind; [by apply effects_getPrivateKeys|]. intros keys w2.
  destruct (_ =? _)%nat.
  { left. by exists []. }
  revert w2.
  apply ends_at_write_bind; [by apply effects_lift|]. intros wallets w3. revert w3.
  apply ends_at_write_bind; [by apply effects_alloc|]. intros arr w4. revert w4.
  apply ends_at_write_bind; [by apply effects_shuffleArray|]. intros sh w5. revert w5.
  apply ends_at_write_bind; [by apply effects_array_length|]. intros n w6. revert w6.
  apply ends_at_write_bind; [by apply effects_wallets_loop_any|]. intros rs w7. revert w7.
  apply ends_at_write_bind.
  { eapply effects_weaken; [by apply effects_summarize|done]. }
  intros s w8. unfold ends_at_write, wrote_summary_last, bind, call, ret.
  cbn [fst snd log].
  destruct (writeFile env _) as [[]|e] eqn:Hreply; cbn [fst snd log].
  - exists s. split; [by exists []|done].
  - right. exists s. split; [by exists []|done].
Qed.

(** X14: the exit code tells whether the summary was saved.  [main] ends
    with 0 or 1; it ends with 0 exactly when the latest call of the run is
    the write of [deployments.json], the only write of the run, and that
    write succeeded.  A run whose deployments were all made but whose
    summary could not be written ends with 1. *)
Theorem exit_code_tells_summary_saved (env : Env) (w : World Wallet) :
  ((main env w).1 = 0 \/ (main env w).1 = 1) /\
  ((main env w).1 = 0 <->
   exists s, wrote_summary_last (log w) (log (main env w).2) s /\
             writeFile env (log (main env w).2) = Ok tt).
Proof.
  pose proof (main_body_ends_at_write env w) as Hend.
  unfold main. unfold ends_at_write in Hend.
  destruct (main_body env w) as [[u|e] w']; cbn [fst snd] in *.
  - split; [by left|]. split; [by intros _|done].
  - split; [by right|]. split; [done|].
    intros (s & (evs & Hlog & Hevs) & Hreply).
    destruct Hend as [(evs' & Hlog' & Hevs') | (s' & _ & Hthrow)].
    + rewrite Hlog' in Hlog. rewrite app_comm_cons in Hlog.
      apply app_inv_tail in Hlog. subst evs'.
      by apply Forall_cons_1 in Hevs' as [? _].
    + rewrite Hthrow in Hreply. discriminate.
Qed.

Example full_disk_exit_code :
  (main fulldisk_env empty_world).1 = 1 /\ (main sample_env empty_world).1 = 0.
Proof. split; reflexivity. Qed.

(** ** Every order can come out of the shuffle *)

Lemma perm_same_tail {T} (z y : T) (t : list T) : z :: t ≡ₚ y :: t -> z = y.
Proof.
  intros Hp. change ([z] ++ t ≡ₚ [y] ++ t) in Hp.
  apply Permutation_app_inv_r in Hp. by apply Permutation_length_1 in Hp.
Qed.

(** The element wanted at index [i] is found at or before [i] when the
    two arrays already agree after [i]. *)
Lemma wanted_element_before {T} (zs ys : list T) (i : nat) (v : T) :
  zs ≡ₚ ys -> drop (S i) zs = drop (S i) ys -> ys !! i = Some v ->
  exists j, (j <= i)%nat /\ zs !! j = Some v.
Proof.
  intros Hp Hdrop Hv.
  rewrite <- (take_drop (S i) zs), <- (take_drop (S i) ys), Hdrop in Hp.
  apply Permutation_app_inv_r in Hp.
  assert (Hin : v ∈ take (S i) ys).
  { apply list_elem_of_lookup. exists i. rewrite lookup_take_lt by lia. done. }
  rewrite <- Hp in Hin. apply list_elem_of_lookup in Hin as [j Hj].
  pose proof (lookup_lt_Some _ _ _ Hj) as Hlt. rewrite length_take in Hlt.
  rewrite lookup_take_lt in Hj by lia. exists j. split; [lia|done].
Qed.

Lemma swap_places_wanted {A} (zs ys : list (option A)) (i j : nat) (v : option A) :
  (i < length zs)%nat -> (j <= i)%nat ->
  drop (S i) zs = drop (S i) ys -> ys !! i = Some v -> zs !! j = Some v ->
  drop i (js_set (js_set zs (Z.of_nat i) (js_get zs (Z.of_nat j))) (Z.of_nat j)
            (js_get zs (Z.of_nat i))) = drop i ys.
Proof.
  intros Hi Hj Hdrop Hv Hzj. unfold js_get, js_set.
  destruct (Z.ltb_spec (Z.of_nat i) 0); [lia|].
  destruct (Z.ltb_spec (Z.of_nat j) 0); [lia|].
  destruct (Z.ltb_spec (Z.of_nat i) (Z.of_nat (length zs))); [|lia].
  rewrite length_insert.
  destruct (Z.ltb_spec (Z.of_nat j) (Z.of_nat (length zs))); [|lia].
  rewrite !Nat2Z.id, Hzj.
  destruct (lookup_lt_is_Some_2 zs i Hi) as [vi Hvi]. rewrite Hvi.
  cbn [mjoin option_join].
  apply list_eq. intros k. rewrite !lookup_drop.
  destruct k as [|k].
  - rewrite Nat.add_0_r, Hv. destruct (decide (j = i)) as [->|Hne].
    + rewrite list_lookup_insert_eq by (rewrite length_insert; lia). congruence.
    + rewrite list_lookup_insert_ne by done.
      by rewrite list_lookup_insert_eq by lia.
  - rewrite !list_lookup_insert_ne by lia.
    pose proof (f_equal (fun l => l !! k) Hdrop) as Hk. cbn beta in Hk.
    rewrite !lookup_drop in Hk. by replace (i + S k)%nat with (S i + k)%nat by lia.
Qed.

(** The loop of [shuffleArray] from index [i] can bring [zs] to any
    rearrangement [ys] that agrees with [zs] after [i]: there are [i]
    draws that do it. *)
Lemma shuffle_loop_reach {A} (i : nat) :
  forall zs ys : list (option A),
    zs ≡ₚ ys -> (i < length zs)%nat -> Z.of_nat (length zs) <= 2 ^ 52 ->
    drop (S i) zs = drop (S i) ys ->
    exists ds : list Draw,
      length ds = i /\ Forall unit_draw ds /\
      forall env sh (w : World A),
        heap w !! sh = Some zs ->
        (forall k, (k < i)%nat -> ds !! k = Some (random env (draws w + k))) ->
        shuffle_loop env i sh w =
          (Ok tt, mkWorld (<[sh := ys]> (heap w)) (draws w + i) (clock w) (log w)).
Proof.
  induction i as [|i IH]; intros zs ys Hp Hi Hsize Hdrop.
  - exists []. split; [done|]. split; [done|]. intros env sh w Hzs _.
    assert (zs = ys) as <-.
    { destruct zs as [|z zs'], ys as [|y ys']; cbn in Hi; try lia.
      - symmetry in Hp. by apply Permutation_nil_cons in Hp.
      - cbn in Hdrop. rewrite !drop_0 in Hdrop. subst ys'.
        by rewrite (perm_same_tail _ _ _ Hp). }
    cbn [shuffle_loop]. unfold ret.
    by rewrite insert_id, Nat.add_0_r, world_eta.
  - assert (Hlen : length ys = length zs) by (symmetry; by apply Permutation_length).
    destruct (lookup_lt_is_Some_2 ys (S i) ltac:(lia)) as [v Hv].
    destruct (wanted_element_before zs ys (S i) v Hp Hdrop Hv) as (j & Hj & Hzj).
    destruct (floor_mul_onto (Z.of_nat (S i) + 1) (Z.of_nat j) ltac:(lia) ltac:(lia))
      as [Hunit Hpick].
    set (u := mkDraw _ 53) in *.
    set (zs' := js_set (js_set zs (Z.of_nat (S i)) (js_get zs (Z.of_nat j))) (Z.of_nat j)
                  (js_get zs (Z.of_nat (S i)))).
    pose proof (js_swap_permutation zs (S i) (Z.of_nat j) Hi ltac:(lia)) as Hswap.
    fold zs' in Hswap.
    destruct (IH zs' ys) as (ds & Hds & Hunits & Hrun).
    { by rewrite Hswap. }
    { rewrite (Permutation_length Hswap). lia. }
    { rewrite (Permutation_length Hswap). lia. }
    { rewrite (drop_S ys v (S i) Hv) in *.
      pose proof (swap_places_wanted zs ys (S i) j v Hi Hj Hdrop Hv Hzj) as Hd.
      fold zs' in Hd. rewrite (drop_S ys v (S i) Hv) in Hd.
      destruct (drop (S i) zs') as [|z t] eqn:Hz; [done|].
      injection Hd as -> ->.
      pose proof (f_equal (drop 1) Hz) as Hz1. rewrite drop_drop in Hz1.
      cbn in Hz1. by rewrite Nat.add_1_r in Hz1. }
    exists (u :: ds). split; [cbn; by rewrite Hds|]. split; [by constructor|].
    intros env sh w Hzs Hdraws.
    rewrite (shuffle_step env i sh w zs Hzs). cbv zeta.
    pose proof (Hdraws 0%nat ltac:(lia)) as H0. cbn in H0. rewrite Nat.add_0_r in H0.
    injection H0 as H0. rewrite <- H0, Hpick. fold zs'.
    rewrite Hrun.
    + cbn [heap draws clock log]. rewrite insert_insert_eq. do 2 f_equal. lia.
    + cbn [heap]. by rewrite lookup_insert_eq.
    + intros k Hk. cbn [draws]. specialize (Hdraws (S k) ltac:(lia)).
      change ((u :: ds) !! S k) with (ds !! k) in Hdraws.
      rewrite Hdraws. do 2 f_equal. lia.
Qed.

(** X15: the shuffle can return every order.  For an array of at most
    2^52 elements and any rearrangement of it, there is a sequence of
    values of [Math.random()], all in [0,1), with which [shuffleArray]
    returns a new array holding exactly that rearrangement, after one
    draw per element but the first. *)
Theorem shuffleArray_any_order (A : Type) (array : loc) (w : World A)
    (xs ys : list (option A)) :
  heap w !! array = Some xs ->
  ys ≡ₚ xs ->
  Z.of_nat (length xs) <= 2 ^ 52 ->
  exists rnd : nat -> Draw,
    (forall k, unit_draw (rnd k)) /\
    forall env, (forall k, random env k = rnd k) ->
      exists shuffled w',
        shuffleArray env array w = (Ok shuffled, w') /\
        heap w' !! shuffled = Some ys /\
        draws w' = (draws w + (length xs - 1))%nat.
Proof.
  intros Hxs Hp Hsize.
  destruct xs as [|x xs'].
  - apply Permutation_nil_r in Hp. subst ys.
    exists (fun _ => mkDraw 0 0). split; [intros k; unfold unit_draw; cbn; lia|].
    intros env _. rewrite shuffleArray_run. cbv zeta.
    unfold array_at. rewrite Hxs. cbn. eexists _, _. split; [reflexivity|].
    cbn. rewrite lookup_insert_eq. split; [done|lia].
  - set (xs := x :: xs') in *.
    destruct (shuffle_loop_reach (length xs') xs ys) as (ds & Hds & Hunits & Hrun).
    { done. } { cbn. lia. } { done. }
    { rewrite !drop_ge; [done| |cbn; lia].
      rewrite (Permutation_length Hp). cbn. lia. }
    exists (fun k => default (mkDraw 0 0) (ds !! (k - draws w)%nat)). split.
    { intros k. destruct (ds !! _) as [u|] eqn:Hu; cbn.
      - rewrite Forall_forall in Hunits. eapply Hunits, list_elem_of_lookup_2, Hu.
      - unfold unit_draw. cbn. lia. }
    intros env Henv. rewrite shuffleArray_run. cbv zeta.
    unfold array_at. rewrite Hxs. change (default [] (Some xs)) with xs.
    replace (Z.to_nat (Z.of_nat (length xs) - 1)) with (length xs') by (cbn; lia).
    rewrite Hrun.
    + eexists _, _. split; [reflexivity|]. cbn [heap draws].
      rewrite lookup_insert_eq. split; [done|]. cbn. lia.
    + cbn [heap]. by rewrite lookup_insert_eq.
    + intros k Hk. cbn [draws]. rewrite Henv.
      replace (draws w + k - draws w)%nat with k by lia.
      destruct (lookup_lt_is_Some_2 ds k ltac:(lia)) as [u Hu]. by rewrite Hu.
Qed.

Lemma shuffleArray_any_order_witness :
  exists rnd : nat -> Draw,
    (forall k, unit_draw (rnd k)) /\
    forall env, (forall k, random env k = rnd k) ->
      exists shuffled w',
        shuffleArray env 1%positive sample_heap = (Ok shuffled, w') /\
        heap w' !! shuffled = Some [Some 20; Some 30; None; Some 20; Some 10] /\
        draws w' = (draws sample_heap + (5 - 1))%nat.
Proof.
  apply (shuffleArray_any_order Z 1%positive sample_heap
           [Some 10; Some 20; None; Some 30; Some 20]
           [Some 20; Some 30; None; Some 20; Some 10]).
  - reflexivity.
  - symmetry. apply (Permutation_rev [Some 10; Some 20; None; Some 30; Some 20]).
  - cbn. lia.
Defined.

(** ** A follow-up that fails *)

Ltac find_call := repeat first [apply list_elem_of_here | apply list_elem_of_further].

(** The attempt stopped before [setMessage] was called. *)
Ltac before_followup :=
  subst; give_trace;
  let Hin := fresh "Hin" in
  intros (? & ? & Hin);
  repeat (apply elem_of_cons in Hin as [Hin|Hin]; [discriminate Hin|]);
  by apply elem_of_nil in Hin.

(** The attempt stopped at [setMessage] or later. *)
Ltac in_followup :=
  subst; give_trace; intros _;
  split; [eexists; find_call|];
  split; [find_call|];
  split; [first [ eexists _, _, [_; _; _]; split; [reflexivity|eassumption]
                | eexists _, _, [_; _; _; _]; split; [reflexivity|eassumption]
                | eexists _, _, [_; _; _; _; _]; split; [reflexivity|eassumption] ]|];
  eauto 6.

Lemma deployAttempt_Throw_trace env wallet art dn wi w e w' :
  deployAttempt env wallet art dn wi w = (Throw e, w') ->
  exists evs,
    log w' = evs ++ log w /\
    ((exists newMsg gas, ESetMessage newMsg gas ∈ evs) ->
     (exists gas, EDeploy gas ∈ evs) /\
     EWaitForDeployment ∈ evs /\
     (exists addr pre post,
        evs = post ++ EGetAddress :: pre /\
        getAddress env (EGetAddress :: pre ++ log w) = Ok addr) /\
     ((exists l, setMessage env l = Throw e) \/
      (exists l, tx_wait env l = Throw e) \/
      (exists l, contract_message env l = Throw e))).
Proof.
  unfold deployAttempt. intros H.
  apply bind_Throw in H as [H | (balance & w1 & Hbal & H)].
  { destruct (provider wallet).
    - prim H. injection H as H <-. before_followup.
    - prim H. injection H as <- <-. exists []. split; [done|].
      intros (? & ? & Hin). by apply elem_of_nil in Hin. }
  destruct (provider wallet); [|discriminate].
  prim Hbal. injection Hbal as Hbal <-.
  destruct (balance =? 0).
  { prim H. injection H as <- <-. before_followup. }
  tstep H gas. tstep H x3; [before_followup|].
  tstep H x4; [before_followup|]. tstep H x5; [before_followup|].
  tstep H addr; [before_followup|]. tstep H x7; [before_followup|].
  tstep H u.
  apply bind_Throw in H as [H | (tx & w9 & Htx & H)].
  - destruct (gt_0_3 u); [|discriminate].
    tstep H delay. tstep H x9. tstep H msg. tstep H gas2.
    tstep H hash; [in_followup|].
    tstep H x10; [in_followup|].
    tstep H x11; [in_followup|]. discriminate.
  - tstep H ts. discriminate.
Qed.

(** X17: a follow-up that fails hides the contract.  When an attempt got
    as far as calling [setMessage] and its outcome is a failure, the
    contract had been deployed and confirmed and [getAddress] had
    returned its address; the failure is that of [setMessage], of the
    wait for the transaction or of the last read of the message; yet the
    outcome holds neither the contract address nor the explorer link nor
    a transaction hash, only the error message. *)
Theorem failed_followup_hides_contract (env : Env) (wallet : Wallet) (art : Artifact)
    (deployNumber' walletIndex' : Z) (w w' : World Wallet) (o : Outcome)
    (evs : list Event) :
  deployContract env wallet art deployNumber' walletIndex' w = (Ok o, w') ->
  log w' = evs ++ log w ->
  (exists newMsg gas, ESetMessage newMsg gas ∈ evs) ->
  success o = false ->
  ((exists gas, EDeploy gas ∈ evs) /\
   EWaitForDeployment ∈ evs /\
   exists addr pre post,
     evs = post ++ EGetAddress :: pre /\
     getAddress env (EGetAddress :: pre ++ log w) = Ok addr) /\
  contractAddress o = None /\ explorer o = None /\ txHash o = Absent /\
  exists e, error o = Some (message e) /\
            ((exists l, setMessage env l = Throw e) \/
             (exists l, tx_wait env l = Throw e) \/
             (exists l, contract_message env l = Throw e)).
Proof.
  intros Hrun Hlog Hsent Hfailed. unfold deployContract, try_catch in Hrun.
  destruct (deployAttempt env wallet art deployNumber' walletIndex' w)
    as [[r|e] w1] eqn:Hatt.
  - injection Hrun as -> ->.
    apply deployAttempt_Ok in Hatt as (Hs & _). congruence.
  - apply deployAttempt_Throw_trace in Hatt as (evs' & Hlog1 & Htrace).
    prim Hrun. injection Hrun as <- <-. cbn [log] in Hlog.
    rewrite Hlog1 in Hlog. apply app_inv_tail in Hlog. subst evs'.
    destruct (Htrace Hsent) as (Hd & Hw & Ha & Horigin).
    cbn [contractAddress explorer txHash error]. split_and!; try done.
    by exists e.
Qed.

Lemma failed_followup_hides_contract_witness :
  exists o,
    (deployContract stuck_env sample_wallet sample_artifact 1 1 empty_world).1 = Ok o /\
    success o = false /\ contractAddress o = None /\ error o = Some "nonce too low".
Proof.
  destruct (deployContract_run stuck_env sample_wallet sample_artifact 1 1 empty_world)
    as (o & w' & evs & Hrun & Hlog & _).
  pose proof Hrun as Hval. vm_compute in Hval. injection Hval as Ho Hw.
  assert (Hfailed : success o = false) by by subst o.
  assert (Hsent : exists newMsg gas, ESetMessage newMsg gas ∈ evs).
  { subst w'. cbn [log empty_world] in Hlog. rewrite app_nil_r in Hlog. subst evs.
    eexists _, _. apply list_elem_of_here. }
  destruct (failed_followup_hides_contract stuck_env sample_wallet sample_artifact 1 1
              empty_world w' o evs Hrun Hlog Hsent Hfailed) as (_ & Hnone & _).
  exists o. rewrite Hrun. split; [done|]. split; [done|]. split; [done|]. by subst o.
Defined.
